(** * PokemonModelViewer: the 48-bit quaternion decoder and the BNSH wrapper

    A shallow embedding of [test-unpack.py] (the packed quaternion decoder)
    and of [web/tools/bnsh/bnsh2glsl.py] (the command line wrapper around
    [BnshToGlsl.exe]).

    Python integers are unbounded, so they are [Z]; [<<], [>>], [|] and [&]
    are [Z.shiftl], [Z.shiftr], [Z.lor] and [Z.land], which agree with
    Python on negative numbers too.  Python floats are kept abstract behind
    the interface [PyFloat], written once and instantiated twice: with the
    real numbers (exact arithmetic, [math.pi] is [PI]) and with the
    kernel's binary64 numbers (what CPython computes, [math.pi] is the
    double nearest to pi).  Exceptions are values of [result]. *)

From Stdlib Require Import Floats.
From Stdlib Require Import ZArith List Bool Lia Permutation.
From Stdlib Require Import QArith Qabs.
From Stdlib Require Import Reals Lra Psatz.
From Stdlib Require Import Ascii String.
Import ListNotations.

Local Open Scope Z_scope.

(** ** Exceptions *)

Inductive exn : Type :=
| ValueError
| IndexError.

Inductive result (A : Type) : Type :=
| Ok (a : A)
| Raise (e : exn).

Arguments Ok {A} a.
Arguments Raise {A} e.

Definition bind {A B : Type} (r : result A) (k : A -> result B) : result B :=
  match r with
  | Ok a => k a
  | Raise e => Raise e
  end.

Declare Scope result_scope.
Delimit Scope result_scope with result.
Notation "x <- c ;; k" := (bind c (fun x => k))
  (at level 61, c at next level, right associativity) : result_scope.
Local Open Scope result_scope.

(** ** The Python built-ins the decoder calls *)

Module Py.

(** [list.insert(i, v)]: the index is clamped into [0 .. len], a negative
    one counting from the end first. *)
Definition insert {A : Type} (l : list A) (i : Z) (v : A) : list A :=
  let n := Z.of_nat (List.length l) in
  let k := if i <? 0 then Z.max (i + n) 0 else Z.min i n in
  firstn (Z.to_nat k) l ++ v :: skipn (Z.to_nat k) l.

(** [l[i]]: raises IndexError out of range, a negative index counting
    from the end. *)
Definition getitem {A : Type} (l : list A) (i : Z) : result A :=
  let n := Z.of_nat (List.length l) in
  let k := if i <? 0 then i + n else i in
  if (0 <=? k) && (k <? n)
  then match nth_error l (Z.to_nat k) with
       | Some a => Ok a
       | None => Raise IndexError
       end
  else Raise IndexError.

End Py.

(** ** Floating-point interface *)

Class PyFloat (F : Type) : Type := {
  of_int : Z -> F;            (* float(i), and the literals 0.0, 1.0, ... *)
  math_pi : F;                (* math.pi *)
  fadd : F -> F -> F;
  fsub : F -> F -> F;
  fmul : F -> F -> F;
  fdiv : F -> F -> F;
  fneg : F -> F;
  fabs : F -> F;
  flt : F -> F -> bool;       (* a < b *)
  fsqrt : F -> F;             (* the square root on its domain *)
}.

(** The facts about a number type that the structural theorems use. *)
Class PyFloatLaws (F : Type) `{PyFloat F} : Prop := {
  flt_zero_irrefl : flt (of_int 0) (of_int 0) = false;
  fneg_involutive : forall a : F, fneg (fneg a) = a;
  fabs_fneg : forall a : F, fabs (fneg a) = fabs a;
  fsqrt_zero : fsqrt (of_int 0) = of_int 0;
}.

Section Decoder.

Context {F : Type} `{PyFloat F}.

Local Infix "+." := fadd (at level 50, left associativity).
Local Infix "-." := fsub (at level 50, left associativity).
Local Infix "*." := fmul (at level 40, left associativity).
Local Infix "/." := fdiv (at level 40, left associativity).

(** [max(a, b)] of two arguments: the first one is kept unless the second
    is strictly greater. *)
Definition py_max (a b : F) : F := if flt a b then b else a.

(** [math.sqrt]: ValueError ("math domain error") below zero. *)
Definition math_sqrt (a : F) : result F :=
  if flt a (of_int 0) then Raise ValueError else Ok (fsqrt a).

Definition SCALE : Z := 0x7FFF.
Definition PI_QUARTER : F := math_pi /. of_int 4.
Definition PI_HALF : F := math_pi /. of_int 2.

(** [SCALE] and [i] are integers that Python converts to float at the
    division and the multiplication; [SCALE] is not zero, so the division
    raises nothing. *)
Definition expand_float (i : Z) : F :=
  of_int i *. (PI_HALF /. of_int SCALE) -. PI_QUARTER.

(** The local variables of [unpack_48bit_quaternion] when it reaches its
    [return]. The two [print] calls only write to the console and are
    left out. *)
Record locals : Type := {
  pack : Z;
  q1 : F;
  q2 : F;
  q3 : F;
  max_component : F;
  missing_component : Z;
  values : list F;
  is_negative : bool;
}.

Definition unpack_locals (x y z : Z) : result locals :=
  let pack := Z.lor (Z.lor (Z.shiftl z 32) (Z.shiftl y 16)) x in
  let q1 := expand_float (Z.land (Z.shiftr pack 3) 0x7FFF) in
  let q2 := expand_float (Z.land (Z.shiftr pack 18) 0x7FFF) in
  let q3 := expand_float (Z.land (Z.shiftr pack 33) 0x7FFF) in
  let values := [q1; q2; q3] in
  let max_component :=
    py_max (of_int 1 -. (q1 *. q1 +. q2 *. q2 +. q3 *. q3)) (of_int 0) in
  max_component <- math_sqrt max_component ;;
  let missing_component := Z.land pack 3 in
  let values := Py.insert values missing_component max_component in
  let is_negative := negb (Z.land pack 4 =? 0) in
  Ok {| pack := pack; q1 := q1; q2 := q2; q3 := q3;
        max_component := max_component;
        missing_component := missing_component;
        values := values; is_negative := is_negative |}.

(** The expression after [return]. *)
Definition return_value (s : locals) : result (list F) :=
  let values := values s in
  if negb (is_negative s) then
    v3 <- Py.getitem values 3 ;;
    v0 <- Py.getitem values 0 ;;
    v1 <- Py.getitem values 1 ;;
    v2 <- Py.getitem values 2 ;;
    Ok [v3; v0; v1; v2]
  else
    v3 <- Py.getitem values 3 ;;
    v0 <- Py.getitem values 0 ;;
    v1 <- Py.getitem values 1 ;;
    v2 <- Py.getitem values 2 ;;
    Ok [fneg v3; fneg v0; fneg v1; fneg v2].

Definition unpack_48bit_quaternion (x y z : Z) : result (list F) :=
  s <- unpack_locals x y z ;;
  return_value s.

End Decoder.

(** ** The two number types *)

(** Exact real arithmetic. *)
#[export] Instance R_PyFloat : PyFloat R := {|
  of_int := IZR;
  math_pi := PI;
  fadd := Rplus;
  fsub := Rminus;
  fmul := Rmult;
  fdiv := Rdiv;
  fneg := Ropp;
  fabs := Rabs;
  flt := fun a b => if Rlt_dec a b then true else false;
  fsqrt := R_sqrt.sqrt;
|}.

(** IEEE 754 binary64, round to nearest even: CPython's float. An integer
    is converted by correct rounding (CPython raises OverflowError beyond
    the range of a double; the decoder converts nothing above 32767), and
    [math.pi] is 0x1.921fb54442d18p+1. *)
#[export] Instance B64_PyFloat : PyFloat float := {|
  of_int := fun i => SF2Prim (binary_normalize prec emax i 0 false);
  math_pi := 0x1.921fb54442d18p+1%float;
  fadd := PrimFloat.add;
  fsub := PrimFloat.sub;
  fmul := PrimFloat.mul;
  fdiv := PrimFloat.div;
  fneg := PrimFloat.opp;
  fabs := PrimFloat.abs;
  flt := PrimFloat.ltb;
  fsqrt := PrimFloat.sqrt;
|}.

Definition unpack_R : Z -> Z -> Z -> result (list R) :=
  unpack_48bit_quaternion (F := R).
Definition unpack_b64 : Z -> Z -> Z -> result (list float) :=
  unpack_48bit_quaternion (F := float).

(** * Vocabulary of the statements *)

(** A 16-bit unsigned word. *)
Definition uint16 (n : Z) : Prop := 0 <= n < 65536.

(** The reassembled 48-bit value, [(z << 32) | (y << 16) | x]. *)
Definition pack48 (x y z : Z) : Z :=
  Z.lor (Z.lor (Z.shiftl z 32) (Z.shiftl y 16)) x.

(** [set_low2 x k] is [x] with its two low bits replaced by [k]. *)
Definition set_low2 (x k : Z) : Z := Z.lor (Z.ldiff x 3) k.

(** The 15-bit field stored at bit [shift] of the pack. *)
Definition field (p shift : Z) : Z := Z.land (Z.shiftr p shift) 0x7FFF.

Section Vocabulary.

Context {F : Type} {num : PyFloat F}.

Definition sum_of_squares (a b c : F) : F :=
  fadd (fadd (fmul a a) (fmul b b)) (fmul c c).

(** What is handed to [math.sqrt]. *)
Definition sqrt_argument (a b c : F) : F :=
  py_max (fsub (of_int 1) (sum_of_squares a b c)) (of_int 0).

Definition magnitude (a b c : F) : F := fsqrt (sqrt_argument a b c).

End Vocabulary.

(** The sum of the squares of a list, invariant under reordering. *)
Definition sum_squares (l : list R) : R :=
  fold_right (fun v acc => (v * v + acc)%R) 0%R l.

(** The exact rational value of a finite binary64 number. *)
Definition b64_to_Q (f : float) : option Q :=
  match Prim2SF f with
  | S754_zero _ => Some 0%Q
  | S754_finite s m e =>
      Some (((if s then Z.neg m else Z.pos m) # 1) * Qpower 2 e)%Q
  | S754_infinity _ | S754_nan => None
  end.

(** [all_from n i f]: [f] holds at [i], [i + 1], ..., [i + n - 1]. *)
Fixpoint all_from (n : nat) (i : Z) (f : Z -> bool) : bool :=
  match n with
  | O => true
  | S n' => f i && all_from n' (i + 1) f
  end.

(** [expand_float i] lies between the doubles [-PI_QUARTER] and
    [PI_QUARTER]. *)
Definition in_quarter_range_b64 (i : Z) : bool :=
  let v := expand_float (F := float) i in
  PrimFloat.leb (fneg PI_QUARTER) v && PrimFloat.leb v PI_QUARTER.

(** [exact_lt a b]: both doubles are finite and the exact value of [a] is
    below that of [b]; [b64_lt_exact] decides it. *)
Definition exact_lt (a b : float) : Prop :=
  exists p q : Q, b64_to_Q a = Some p /\ b64_to_Q b = Some q /\ (p < q)%Q.

Definition b64_lt_exact (a b : float) : bool :=
  match b64_to_Q a, b64_to_Q b with
  | Some p, Some q => negb (Qle_bool q p)
  | _, _ => false
  end.

(** One step up in the field is one step up in the decoded double. *)
Definition step_increasing_b64 (i : Z) : bool :=
  b64_lt_exact (expand_float (F := float) i) (expand_float (F := float) (i + 1)).

(** The decoded double is not zero. *)
Definition nonzero_b64 (i : Z) : bool :=
  negb (PrimFloat.eqb (expand_float (F := float) i) 0).

(** Classes of binary64 numbers, read on the specification [spec_float]
    of the kernel's floats: [signed_as s r] is a number (not NaN) of sign
    [s]; [nonzero_signed s r] is moreover not a zero; [non_negative r] is a
    zero of either sign, or a positive finite number, or plus infinity. *)
Definition signed_as (sx : bool) (r : spec_float) : Prop :=
  match r with
  | S754_nan => False
  | S754_zero s | S754_infinity s | S754_finite s _ _ => s = sx
  end.

Definition nonzero_signed (sx : bool) (r : spec_float) : Prop :=
  match r with
  | S754_finite s _ _ | S754_infinity s => s = sx
  | S754_zero _ | S754_nan => False
  end.

Definition non_negative (r : spec_float) : Prop :=
  match r with
  | S754_nan => False
  | S754_zero _ => True
  | S754_infinity s | S754_finite s _ _ => s = false
  end.

Definition b64_non_negative (f : float) : Prop := non_negative (Prim2SF f).

(** Neither NaN nor infinite. *)
Definition b64_finite (f : float) : Prop :=
  match Prim2SF f with
  | S754_zero _ | S754_finite _ _ _ => True
  | S754_infinity _ | S754_nan => False
  end.

(** The double 1.0: mantissa 2^52, exponent -52. *)
Definition SFone64 : spec_float := S754_finite false 4503599627370496 (-52).

(** * The BNSH command line wrapper

    [bnsh2glsl.py] checks two paths, starts [BnshToGlsl.exe] and turns the
    outcome into an exit code.  The operating system is a parameter: a file
    system state [fs] with [Path.exists] and [Path.glob], [Path.absolute],
    and what happens when a command line is started.  [Path.exists] and
    [Path.glob] can raise: [Path.exists] answers [False] only for the
    errors ENOENT, ENOTDIR, EBADF and ELOOP and lets every other OSError
    through (a file name that is too long, for one).  Console output is
    kept as a list of messages, one per [print] call. *)

Module Bnsh.

Local Open Scope string_scope.

Inductive py_exception : Type :=
| CalledProcessError (returncode : Z)
| OtherException (text : string).

Inductive outcome (A : Type) : Type :=
| Val (a : A)
| Exc (e : py_exception).

Arguments Val {A} a.
Arguments Exc {A} e.

(** What starting a process can do: it runs and exits with a code, or it
    cannot be started at all (an OSError in Python). *)
Inductive launch_result : Type :=
| Exited (code : Z)
| NotLaunched (text : string).

(** One constructor per [print] call of the script. *)
Inductive message : Type :=
| InputMissing (p : string)
| SuffixWarning (p : string)
| ExeMissing
| ExePath (p : string)
| BuildHint (line : nat)
| Blank
| Rule
| Title
| InputLine (p : string)
| OutputLine (p : string)
| Converted (n : nat)
| Failed
| ErrorText (e : py_exception)
| Usage.

(** The operating system as the script sees it. *)
Class OS : Type := {
  fs : Type;                                  (* file system states *)
  absolute : string -> string;                (* Path(p).absolute() *)
  path_exists : fs -> string -> outcome bool; (* Path.exists, or raises *)
  path_glob : fs -> string -> string -> outcome (list string);
  suffix_lower : string -> string;            (* Path.suffix.lower() *)
  launch : list string -> fs -> launch_result * fs;
  BNSH_TO_GLSL_EXE : string;  (* Path(__file__).parent / "BnshToGlsl.exe" *)
}.

Section Script.

Context {os : OS}.

Record world : Type := {
  files : fs;
  console : list message;
  invocations : list (list string);
}.

Definition io (A : Type) : Type := world -> outcome A * world.

Definition ret {A : Type} (a : A) : io A := fun w => (Val a, w).

Definition bind {A B : Type} (c : io A) (k : A -> io B) : io B :=
  fun w =>
    match c w with
    | (Val a, w') => k a w'
    | (Exc e, w') => (Exc e, w')
    end.

(** [try: c except CalledProcessError: h1 except Exception as e: h2 e]. *)
Definition try_except {A : Type} (c : io A) (h1 : io A)
  (h2 : py_exception -> io A) : io A :=
  fun w =>
    match c w with
    | (Val a, w') => (Val a, w')
    | (Exc (CalledProcessError _), w') => h1 w'
    | (Exc (OtherException t), w') => h2 (OtherException t) w'
    end.

Declare Scope io_scope.
Notation "x <- c ;; k" := (bind c (fun x => k))
  (at level 61, c at next level, right associativity) : io_scope.
Notation "c ;; k" := (bind c (fun _ => k))
  (at level 61, right associativity) : io_scope.
Local Open Scope io_scope.

Definition print (m : message) : io unit :=
  fun w => (Val tt, {| files := files w;
                       console := console w ++ [m];
                       invocations := invocations w |}).

Definition exists_ (p : string) : io bool :=
  fun w => (path_exists (files w) p, w).

Definition glob (p pattern : string) : io (list string) :=
  fun w => (path_glob (files w) p pattern, w).

(** [subprocess.run(cmd, check=True)]: the command is started; an exit code
    other than 0 raises CalledProcessError. *)
Definition subprocess_run (cmd : list string) : io Z :=
  fun w =>
    let (r, f) := launch cmd (files w) in
    let w' := {| files := f;
                 console := console w;
                 invocations := invocations w ++ [cmd] |} in
    match r with
    | Exited c =>
        if (c =? 0)%Z then (Val c, w') else (Exc (CalledProcessError c), w')
    | NotLaunched t => (Exc (OtherException t), w')
    end.

(** [sys.exit(code)]: the script ends with this exit code. *)
Definition sys_exit (code : Z) : io Z := ret code.

Definition convert_bnsh (input_file output_dir : string) : io bool :=
  let input_path := absolute input_file in
  let output_path := absolute output_dir in
  e <- exists_ input_path ;;
  if negb e then
    print (InputMissing input_path) ;;
    ret false
  else
    (if negb (String.eqb (suffix_lower input_path) ".bnsh")
     then print (SuffixWarning input_path) else ret tt) ;;
    e <- exists_ BNSH_TO_GLSL_EXE ;;
    if negb e then
      print ExeMissing ;;
      print (ExePath BNSH_TO_GLSL_EXE) ;;
      print Blank ;;
      print (BuildHint 1) ;;
      print (BuildHint 2) ;;
      print (BuildHint 3) ;;
      ret false
    else
      print Rule ;;
      print Title ;;
      print Rule ;;
      print Blank ;;
      print (InputLine input_path) ;;
      print (OutputLine output_path) ;;
      print Blank ;;
      try_except
        (let cmd := [BNSH_TO_GLSL_EXE; input_path; output_path] in
         result <- subprocess_run cmd ;;
         e <- exists_ output_path ;;
         (if e then
            glsl_files <- glob output_path "*.glsl" ;;
            print Blank ;;
            print Rule ;;
            print (Converted (List.length glsl_files)) ;;
            print Rule
          else ret tt) ;;
         ret true)
        (print Blank ;;
         print Rule ;;
         print Failed ;;
         print Rule ;;
         ret false)
        (fun e =>
           print Blank ;;
           print Rule ;;
           print (ErrorText e) ;;
           print Rule ;;
           ret false).

(** [argv] is [sys.argv], the script's own name first; the value of [main]
    is the code it hands to [sys.exit], unless an exception passes through
    it. *)
Definition main (argv : list string) : io Z :=
  if negb (Nat.eqb (List.length argv) 3) then
    print Usage ;;
    sys_exit 1
  else
    let input_file := nth 1 argv "" in
    let output_dir := nth 2 argv "" in
    success <- convert_bnsh input_file output_dir ;;
    sys_exit (if success then 0 else 1)%Z.

(** The exit status of the process that ran [main]: the code given to
    [sys.exit], or 1 when an exception reached the top level (the
    interpreter prints the traceback and exits with 1). *)
Definition exit_status (r : outcome Z) : Z :=
  match r with
  | Val code => code
  | Exc _ => 1%Z
  end.

End Script.

End Bnsh.

Section Command.

Context {os : Bnsh.OS}.

(** The command line the script builds. *)
Definition command (input_file output_dir : string) : list string :=
  [Bnsh.BNSH_TO_GLSL_EXE; Bnsh.absolute input_file; Bnsh.absolute output_dir].

End Command.

(** A small operating system to run the wrapper in: a file system is the
    list of the paths that exist, paths are already absolute, every suffix
    reads [.bnsh], and the tool converts [good.bnsh] (creating the output
    directory) and fails on anything else.  A name of more than 255
    characters cannot be looked up: [Path.exists] raises OSError. *)
Definition toy_exists (f : list string) (p : string) : Bnsh.outcome bool :=
  if (255 <? String.length p)%nat
  then Bnsh.Exc (Bnsh.OtherException "File name too long"%string)
  else Bnsh.Val (existsb (String.eqb p) f).

Definition toy_os : Bnsh.OS := {|
  Bnsh.fs := list string;
  Bnsh.absolute := fun p => p;
  Bnsh.path_exists := toy_exists;
  Bnsh.path_glob := fun _ _ _ => Bnsh.Val ["out/main.glsl"%string];
  Bnsh.suffix_lower := fun _ => ".bnsh"%string;
  Bnsh.launch := fun cmd f =>
    match cmd with
    | [_; i; o] =>
        if String.eqb i "good.bnsh" then (Bnsh.Exited 0, o :: f)
        else (Bnsh.Exited 1, f)
    | _ => (Bnsh.NotLaunched "usage"%string, f)
    end;
  Bnsh.BNSH_TO_GLSL_EXE := "BnshToGlsl.exe"%string;
|}.

Definition toy_world : Bnsh.world (os := toy_os) :=
  @Bnsh.Build_world toy_os
    ["BnshToGlsl.exe"%string; "good.bnsh"%string; "bad.bnsh"%string] [] [].

(** The same system with an output directory that cannot be listed. *)
Definition toy_os_unreadable : Bnsh.OS := {|
  Bnsh.fs := list string;
  Bnsh.absolute := fun p => p;
  Bnsh.path_exists := toy_exists;
  Bnsh.path_glob := fun _ _ _ =>
    Bnsh.Exc (Bnsh.OtherException "Too many open files"%string);
  Bnsh.suffix_lower := fun _ => ".bnsh"%string;
  Bnsh.launch := fun cmd f =>
    match cmd with
    | [_; i; o] =>
        if String.eqb i "good.bnsh" then (Bnsh.Exited 0, o :: f)
        else (Bnsh.Exited 1, f)
    | _ => (Bnsh.NotLaunched "usage"%string, f)
    end;
  Bnsh.BNSH_TO_GLSL_EXE := "BnshToGlsl.exe"%string;
|}.

Definition toy_world_unreadable : Bnsh.world (os := toy_os_unreadable) :=
  @Bnsh.Build_world toy_os_unreadable
    ["BnshToGlsl.exe"%string; "good.bnsh"%string] [] [].

(** A world in which the executable has not been built. *)
Definition toy_world_no_exe : Bnsh.world (os := toy_os) :=
  @Bnsh.Build_world toy_os ["good.bnsh"%string] [] [].

(** A file name of 256 characters; no such file exists in the toy worlds. *)
Definition long_name : string := string_of_list_ascii (repeat "a"%char 256).

(** * Properties *)

(** ** Bit-level facts about the reassembled pack *)

Lemma testbit_3 (n : Z) : 0 <= n -> Z.testbit 3 n = (n <? 2).
Proof.
  intros Hn. change 3 with (Z.ones 2).
  destruct (Z.ltb_spec n 2).
  - apply Z.ones_spec_low; lia.
  - apply Z.ones_spec_high; lia.
Qed.

Lemma testbit_4 (n : Z) : 0 <= n -> Z.testbit 4 n = (n =? 2).
Proof.
  intros Hn. change 4 with (2 ^ 2). rewrite Z.pow2_bits_eqb by lia.
  apply Z.eqb_sym.
Qed.

Lemma testbit_7 (n : Z) : 0 <= n -> Z.testbit 7 n = (n <? 3).
Proof.
  intros Hn. change 7 with (Z.ones 3).
  destruct (Z.ltb_spec n 3).
  - apply Z.ones_spec_low; lia.
  - apply Z.ones_spec_high; lia.
Qed.

Lemma testbit_below_8 (m n : Z) : 0 <= m <= 7 -> 3 <= n -> Z.testbit m n = false.
Proof.
  intros Hm Hn.
  destruct (Z.eq_dec m 0) as [-> | Hm0]; [apply Z.bits_0 |].
  apply Z.bits_above_log2; [lia |].
  assert (Z.log2 m < 3) by (apply Z.log2_lt_pow2; [lia | change (2 ^ 3) with 8; lia]).
  lia.
Qed.

(** The low three bits of the pack are those of [x]. *)
Lemma pack48_land_low (x y z m : Z) :
  0 <= m <= 7 -> Z.land (pack48 x y z) m = Z.land x m.
Proof.
  intros Hm. unfold pack48. apply Z.bits_inj'. intros n Hn.
  rewrite !Z.land_spec, !Z.lor_spec.
  destruct (Z.ltb_spec n 3).
  - rewrite !Z.shiftl_spec_low by lia. reflexivity.
  - rewrite (testbit_below_8 m n) by lia. now rewrite !andb_false_r.
Qed.

(** Above bit 2 the pack takes [x] only through [x >> 3]. *)
Lemma pack48_shiftr_3 (x y z : Z) :
  Z.shiftr (pack48 x y z) 3 =
  Z.lor (Z.lor (Z.shiftl z 29) (Z.shiftl y 13)) (Z.shiftr x 3).
Proof.
  unfold pack48. rewrite !Z.shiftr_lor.
  rewrite !Z.shiftr_shiftl_l by lia. reflexivity.
Qed.

Lemma shiftr_18 (p : Z) : Z.shiftr p 18 = Z.shiftr (Z.shiftr p 3) 15.
Proof. rewrite Z.shiftr_shiftr by lia. reflexivity. Qed.

Lemma shiftr_33 (p : Z) : Z.shiftr p 33 = Z.shiftr (Z.shiftr p 3) 30.
Proof. rewrite Z.shiftr_shiftr by lia. reflexivity. Qed.

Lemma land_3_range (p : Z) : 0 <= Z.land p 3 <= 3.
Proof.
  assert (E : Z.land p 3 = p mod 4)
    by (change 3 with (Z.ones 2); now rewrite Z.land_ones by lia).
  rewrite E. pose proof (Z.mod_pos_bound p 4). lia.
Qed.

Lemma land_3_cases (p : Z) :
  Z.land p 3 = 0 \/ Z.land p 3 = 1 \/ Z.land p 3 = 2 \/ Z.land p 3 = 3.
Proof. pose proof (land_3_range p). lia. Qed.

(** A field is a 15-bit number, whatever the pack. *)
Lemma field_range (p shift : Z) : 0 <= field p shift <= 32767.
Proof.
  assert (E : field p shift = Z.shiftr p shift mod 32768).
  { unfold field. change 0x7FFF with (Z.ones 15).
    now rewrite Z.land_ones by lia. }
  rewrite E. pose proof (Z.mod_pos_bound (Z.shiftr p shift) 32768). lia.
Qed.

(** Setting or clearing bit 2 of [x]. *)
Lemma shiftr_3_setbit (x : Z) : Z.shiftr (Z.setbit x 2) 3 = Z.shiftr x 3.
Proof.
  apply Z.bits_inj'. intros n Hn. rewrite !Z.shiftr_spec by lia.
  apply Z.setbit_neq; lia.
Qed.

Lemma shiftr_3_clearbit (x : Z) : Z.shiftr (Z.clearbit x 2) 3 = Z.shiftr x 3.
Proof.
  apply Z.bits_inj'. intros n Hn. rewrite !Z.shiftr_spec by lia.
  apply Z.clearbit_neq; lia.
Qed.

Lemma land_3_setbit (x : Z) : Z.land (Z.setbit x 2) 3 = Z.land x 3.
Proof.
  apply Z.bits_inj'. intros n Hn. rewrite !Z.land_spec, testbit_3 by lia.
  destruct (Z.ltb_spec n 2); [| now rewrite !andb_false_r].
  rewrite Z.setbit_neq by lia. reflexivity.
Qed.

Lemma land_3_clearbit (x : Z) : Z.land (Z.clearbit x 2) 3 = Z.land x 3.
Proof.
  apply Z.bits_inj'. intros n Hn. rewrite !Z.land_spec, testbit_3 by lia.
  destruct (Z.ltb_spec n 2); [| now rewrite !andb_false_r].
  rewrite Z.clearbit_neq by lia. reflexivity.
Qed.

Lemma land_4_setbit (x : Z) : Z.land (Z.setbit x 2) 4 = 4.
Proof.
  apply Z.bits_inj'. intros n Hn. rewrite !Z.land_spec, testbit_4 by lia.
  destruct (Z.eqb_spec n 2) as [-> | Hne]; [| apply andb_false_r].
  rewrite Z.setbit_eq by lia. reflexivity.
Qed.

Lemma land_4_clearbit (x : Z) : Z.land (Z.clearbit x 2) 4 = 0.
Proof.
  apply Z.bits_inj'. intros n Hn. rewrite !Z.land_spec, testbit_4, Z.bits_0 by lia.
  destruct (Z.eqb_spec n 2) as [-> | Hne]; [| apply andb_false_r].
  rewrite Z.clearbit_eq by lia. reflexivity.
Qed.

(** Rewriting the two low bits of [x]. *)
Lemma shiftr_3_set_low2 (x k : Z) :
  0 <= k <= 3 -> Z.shiftr (set_low2 x k) 3 = Z.shiftr x 3.
Proof.
  intros Hk. unfold set_low2. apply Z.bits_inj'. intros n Hn.
  rewrite !Z.shiftr_spec, Z.lor_spec, Z.ldiff_spec by lia.
  rewrite testbit_3, (testbit_below_8 k) by lia.
  replace (n + 3 <? 2) with false by (symmetry; apply Z.ltb_ge; lia).
  now rewrite andb_true_r, orb_false_r.
Qed.

Lemma land_3_set_low2 (x k : Z) : 0 <= k <= 3 -> Z.land (set_low2 x k) 3 = k.
Proof.
  intros Hk. unfold set_low2. apply Z.bits_inj'. intros n Hn.
  rewrite Z.land_spec, Z.lor_spec, Z.ldiff_spec, testbit_3 by lia.
  destruct (Z.ltb_spec n 2).
  - simpl. now rewrite andb_false_r, andb_true_r.
  - rewrite andb_false_r. symmetry.
    assert (Hk' : k = 0 \/ k = 1 \/ k = 2 \/ k = 3) by lia.
    destruct Hk' as [-> | [-> | [-> | ->]]];
      [apply Z.bits_0 | change 1 with (Z.ones 1) | change 2 with (2 ^ 1)
       | change 3 with (Z.ones 2)].
    + apply Z.ones_spec_high; lia.
    + rewrite Z.pow2_bits_eqb by lia. apply Z.eqb_neq; lia.
    + apply Z.ones_spec_high; lia.
Qed.

Lemma land_4_set_low2 (x k : Z) :
  0 <= k <= 3 -> Z.land (set_low2 x k) 4 = Z.land x 4.
Proof.
  intros Hk. unfold set_low2. apply Z.bits_inj'. intros n Hn.
  rewrite !Z.land_spec, Z.lor_spec, Z.ldiff_spec, testbit_4, testbit_3 by lia.
  destruct (Z.eqb_spec n 2) as [-> | Hne]; [| now rewrite !andb_false_r].
  assert (Hk' : k = 0 \/ k = 1 \/ k = 2 \/ k = 3) by lia.
  destruct Hk' as [-> | [-> | [-> | ->]]]; simpl;
    now rewrite ?andb_true_r, ?orb_false_r.
Qed.

(** ** What every run of the decoder looks like

    These facts hold for any number type that satisfies [PyFloatLaws], so
    they hold for the exact model and for the binary64 one alike. *)

Section DecoderFacts.

Context {F : Type} {num : PyFloat F} {laws : PyFloatLaws F}.

Lemma py_max_zero_not_below (a : F) :
  flt (py_max a (of_int 0)) (of_int 0) = false.
Proof.
  unfold py_max. destruct (flt a (of_int 0)) eqn:E.
  - apply flt_zero_irrefl.
  - exact E.
Qed.

Lemma math_sqrt_py_max (a : F) :
  math_sqrt (py_max a (of_int 0)) = Ok (fsqrt (py_max a (of_int 0))).
Proof. unfold math_sqrt. now rewrite py_max_zero_not_below. Qed.

(** The clamp, in the number type's own comparison: [math.sqrt] is never
    handed a number below zero, a sum of squares that takes [1 - sum] below
    zero gives magnitude zero, and any other gives the root of [1 - sum]. *)
Lemma magnitude_clamp (a b c : F) :
  let d := fsub (of_int 1) (sum_of_squares a b c) in
  math_sqrt (sqrt_argument a b c) = Ok (magnitude a b c) /\
  flt (sqrt_argument a b c) (of_int 0) = false /\
  (flt d (of_int 0) = true -> magnitude a b c = of_int 0) /\
  (flt d (of_int 0) = false -> magnitude a b c = fsqrt d).
Proof.
  intros d. unfold magnitude, sqrt_argument. fold d.
  split; [apply math_sqrt_py_max |].
  split; [apply py_max_zero_not_below |].
  unfold py_max. split; intros ->; [apply fsqrt_zero | reflexivity].
Qed.

(** The decoder always reaches its [return], with these locals. *)
Lemma unpack_locals_ok (x y z : Z) :
  let p := pack48 x y z in
  let a := expand_float (field p 3) in
  let b := expand_float (field p 18) in
  let c := expand_float (field p 33) in
  unpack_locals x y z =
  Ok {| pack := p; q1 := a; q2 := b; q3 := c;
        max_component := magnitude a b c;
        missing_component := Z.land p 3;
        values := Py.insert [a; b; c] (Z.land p 3) (magnitude a b c);
        is_negative := negb (Z.land p 4 =? 0) |}.
Proof.
  intros p a b c. unfold unpack_locals.
  fold (pack48 x y z). fold p. fold (field p 3) (field p 18) (field p 33).
  fold a b c. fold (sum_of_squares a b c).
  rewrite math_sqrt_py_max. reflexivity.
Qed.

Lemma insert_3 (a b c m : F) (k : Z) :
  0 <= k <= 3 ->
  Py.insert [a; b; c] k m =
  firstn (Z.to_nat k) [a; b; c] ++ m :: skipn (Z.to_nat k) [a; b; c].
Proof.
  intros Hk. unfold Py.insert.
  replace (k <? 0) with false by (symmetry; apply Z.ltb_ge; lia).
  simpl List.length. replace (Z.min k (Z.of_nat 3)) with k by lia.
  reflexivity.
Qed.

Lemma insert_3_cases (a b c m : F) (k : Z) :
  0 <= k <= 3 ->
  (k = 0 /\ Py.insert [a; b; c] k m = [m; a; b; c]) \/
  (k = 1 /\ Py.insert [a; b; c] k m = [a; m; b; c]) \/
  (k = 2 /\ Py.insert [a; b; c] k m = [a; b; m; c]) \/
  (k = 3 /\ Py.insert [a; b; c] k m = [a; b; c; m]).
Proof.
  intros Hk.
  assert (Hk' : k = 0 \/ k = 1 \/ k = 2 \/ k = 3) by lia.
  destruct Hk' as [-> | [-> | [-> | ->]]]; auto 6.
Qed.

Lemma insert_3_nth (a b c m : F) (k : Z) :
  0 <= k <= 3 ->
  nth_error (Py.insert [a; b; c] k m) (Z.to_nat k) = Some m.
Proof.
  intros Hk. destruct (insert_3_cases a b c m k Hk)
    as [[-> ->] | [[-> ->] | [[-> ->] | [-> ->]]]]; reflexivity.
Qed.

(** The [return] expression on a list of four. *)
Lemma return_value_4 (s : locals) (a b c d : F) :
  values s = [a; b; c; d] ->
  return_value s =
  Ok (if is_negative s then map fneg [d; a; b; c] else [d; a; b; c]).
Proof.
  intros Hv. unfold return_value. rewrite Hv.
  destruct (is_negative s); reflexivity.
Qed.

Lemma unpack_48bit_quaternion_ok (x y z : Z) :
  exists s a b c d,
    unpack_locals x y z = Ok s /\
    values s = [a; b; c; d] /\
    Permutation [a; b; c; d] [q1 s; q2 s; q3 s; max_component s] /\
    unpack_48bit_quaternion x y z =
    Ok (if is_negative s then map fneg [d; a; b; c] else [d; a; b; c]).
Proof.
  pose proof (unpack_locals_ok x y z) as Hs. cbv zeta in Hs.
  set (p := pack48 x y z) in *.
  set (a := expand_float (field p 3)) in *.
  set (b := expand_float (field p 18)) in *.
  set (c := expand_float (field p 33)) in *.
  set (m := magnitude a b c) in *.
  destruct (insert_3_cases a b c m (Z.land p 3) (land_3_range p))
    as [[_ E] | [[_ E] | [[_ E] | [_ E]]]];
    rewrite E in Hs;
    eexists; do 4 eexists;
    (split; [exact Hs |]); (split; [reflexivity |]);
    (split; [| unfold unpack_48bit_quaternion; rewrite Hs; simpl bind;
               apply return_value_4; reflexivity]); simpl;
    repeat apply perm_skip;
    first [apply perm_nil | apply Permutation_cons_append].
Qed.

End DecoderFacts.

(** ** Both number types satisfy the laws *)

#[export] Instance R_PyFloatLaws : PyFloatLaws R.
Proof.
  split.
  - simpl. destruct (Rlt_dec 0 0) as [Hlt | _]; [lra | reflexivity].
  - intros a. simpl. apply Ropp_involutive.
  - intros a. simpl. apply Rabs_Ropp.
  - simpl. apply sqrt_0.
Qed.

#[export] Instance B64_PyFloatLaws : PyFloatLaws float.
Proof.
  split.
  - reflexivity.
  - intros a. simpl. apply Prim2SF_inj. rewrite !opp_spec.
    destruct (Prim2SF a) as [s | s | | s m e]; simpl;
      now rewrite ?negb_involutive.
  - intros a. simpl. apply Prim2SF_inj. rewrite !abs_spec, opp_spec.
    destruct (Prim2SF a); reflexivity.
  - reflexivity.
Qed.

(** ** Flag bits against stored bits *)

Section FlagBits.

Context {F : Type} {num : PyFloat F} {laws : PyFloatLaws F}.

Lemma field_18_via_3 (p : Z) :
  field p 18 = Z.land (Z.shiftr (Z.shiftr p 3) 15) 0x7FFF.
Proof. unfold field. now rewrite shiftr_18. Qed.

Lemma field_33_via_3 (p : Z) :
  field p 33 = Z.land (Z.shiftr (Z.shiftr p 3) 30) 0x7FFF.
Proof. unfold field. now rewrite shiftr_33. Qed.

(** Two packs that agree above bit 2 decode to the same stored values and
    the same magnitude; the flags are read from the low bits of [x]. *)
Lemma locals_congruence (x y z x' y' z' : Z) :
  Z.shiftr (pack48 x y z) 3 = Z.shiftr (pack48 x' y' z') 3 ->
  exists s s' : locals,
    unpack_locals x y z = Ok s /\ unpack_locals x' y' z' = Ok s' /\
    q1 s = q1 s' /\ q2 s = q2 s' /\ q3 s = q3 s' /\
    max_component s = max_component s' /\
    missing_component s = Z.land x 3 /\ missing_component s' = Z.land x' 3 /\
    is_negative s = negb (Z.land x 4 =? 0) /\
    is_negative s' = negb (Z.land x' 4 =? 0) /\
    values s =
      Py.insert [q1 s; q2 s; q3 s] (missing_component s) (max_component s) /\
    values s' =
      Py.insert [q1 s'; q2 s'; q3 s'] (missing_component s') (max_component s').
Proof.
  intros Hh.
  pose proof (unpack_locals_ok x y z) as Hs.
  pose proof (unpack_locals_ok x' y' z') as Hs'.
  cbv zeta in Hs, Hs'.
  assert (E3 : field (pack48 x' y' z') 3 = field (pack48 x y z) 3)
    by (unfold field; now rewrite Hh).
  assert (E18 : field (pack48 x' y' z') 18 = field (pack48 x y z) 18)
    by (rewrite !field_18_via_3; now rewrite Hh).
  assert (E33 : field (pack48 x' y' z') 33 = field (pack48 x y z) 33)
    by (rewrite !field_33_via_3; now rewrite Hh).
  rewrite E3, E18, E33 in Hs'.
  rewrite !(pack48_land_low x y z) in Hs by lia.
  rewrite !(pack48_land_low x' y' z') in Hs' by lia.
  eexists; eexists. split; [exact Hs |]. split; [exact Hs' |].
  simpl. repeat split; reflexivity.
Qed.

(** The absolute values that come out are those of the three stored values
    and the magnitude, whatever the flags say. *)
Lemma output_abs_permutation (x y z : Z) (s : locals) :
  unpack_locals x y z = Ok s ->
  exists o : list F,
    unpack_48bit_quaternion x y z = Ok o /\
    Permutation (map fabs o)
                (map fabs [q1 s; q2 s; q3 s; max_component s]).
Proof.
  intros Hs.
  destruct (unpack_48bit_quaternion_ok x y z)
    as (s0 & a & b & c & d & Hs0 & Hv & Hperm & Hout).
  rewrite Hs in Hs0. injection Hs0 as <-.
  eexists. split; [exact Hout |].
  assert (Hrot : Permutation [d; a; b; c] [a; b; c; d])
    by (apply (Permutation_cons_append [a; b; c] d)).
  transitivity (map fabs [d; a; b; c]).
  - destruct (is_negative s); [| reflexivity].
    rewrite map_map. simpl. now rewrite !fabs_fneg.
  - apply Permutation_map. now transitivity [a; b; c; d].
Qed.

End FlagBits.

(** ** The decoder's structure: totality, rotation, flags *)

Section Structure.

Context {F : Type} {num : PyFloat F} {laws : PyFloatLaws F}.

(** C7. [unpack_48bit_quaternion] is total on 16-bit words: whatever the
    three words hold, no exception is raised (neither the ValueError of
    [math.sqrt] nor an IndexError) and a list of exactly four numbers is
    returned, also when the stored values break the unit constraint. *)
Theorem unpack_total (x y z : Z) :
  uint16 x -> uint16 y -> uint16 z ->
  exists a b c d : F, unpack_48bit_quaternion x y z = Ok [a; b; c; d].
Proof.
  intros _ _ _.
  destruct (unpack_48bit_quaternion_ok x y z)
    as (s & a & b & c & d & _ & _ & _ & Hout).
  rewrite Hout. destruct (is_negative s); simpl; eauto.
Qed.

(** C5. Before the sign is applied, the output is the list built by the
    insertion, rotated: with [values = [a; b; c; d]] the function returns
    [[d; a; b; c]] (index 3 first, then indices 0, 1, 2), negated
    element-wise exactly when [is_negative] holds. *)
Theorem output_is_rotation (x y z : Z) :
  uint16 x -> uint16 y -> uint16 z ->
  exists (s : locals) (a b c d : F),
    unpack_locals x y z = Ok s /\
    values s = [a; b; c; d] /\
    Py.getitem (values s) 3 = Ok d /\
    Py.getitem (values s) 0 = Ok a /\
    Py.getitem (values s) 1 = Ok b /\
    Py.getitem (values s) 2 = Ok c /\
    unpack_48bit_quaternion x y z =
    Ok (if is_negative s then map fneg [d; a; b; c] else [d; a; b; c]).
Proof.
  intros _ _ _.
  destruct (unpack_48bit_quaternion_ok x y z)
    as (s & a & b & c & d & Hs & Hv & _ & Hout).
  exists s, a, b, c, d. rewrite Hv. repeat split; assumption.
Qed.

(** C3. With bit 2 of the pack (bit 2 of [x]) cleared and with it set, all
    other bits equal, the two outputs are component-wise negations of each
    other: the second is the first negated, and negating twice gives the
    first back. *)
Theorem sign_bit_negates (x y z : Z) :
  uint16 x -> uint16 y -> uint16 z ->
  exists o : list F,
    unpack_48bit_quaternion (Z.clearbit x 2) y z = Ok o /\
    unpack_48bit_quaternion (Z.setbit x 2) y z = Ok (map fneg o) /\
    map fneg (map fneg o) = o /\
    List.length o = 4%nat.
Proof.
  intros _ _ _.
  destruct (locals_congruence (Z.clearbit x 2) y z (Z.setbit x 2) y z)
    as (s & s' & Hs & Hs' & E1 & E2 & E3 & Em & Hk & Hk' & Hn & Hn' & Hv & Hv').
  { now rewrite !pack48_shiftr_3, shiftr_3_clearbit, shiftr_3_setbit. }
  rewrite land_4_clearbit in Hn. rewrite land_4_setbit in Hn'.
  rewrite Hk', land_3_setbit, <- (land_3_clearbit x), <- Hk in Hv'.
  rewrite <- E1, <- E2, <- E3, <- Em, <- Hv in Hv'.
  assert (H4 : exists a b c d, values s = [a; b; c; d]).
  { rewrite Hv.
    destruct (insert_3_cases (q1 s) (q2 s) (q3 s) (max_component s)
                (missing_component s))
      as [[_ E] | [[_ E] | [[_ E] | [_ E]]]];
      try (rewrite E; eauto).
    rewrite Hk. apply land_3_range. }
  destruct H4 as (a & b & c & d & H4).
  exists [d; a; b; c]. unfold unpack_48bit_quaternion.
  rewrite Hs, Hs'. simpl bind.
  rewrite (return_value_4 s a b c d H4), Hn.
  rewrite (return_value_4 s' a b c d) by now rewrite Hv'.
  rewrite Hn'. simpl. now rewrite !fneg_involutive.
Qed.

(** C4. The missing index is [pack & 3], between 0 and 3; the list built
    before the rotation holds the magnitude at that index and
    [q1, q2, q3], in this order, around it.  Rewriting only the two low
    bits of [x] to [k] leaves the stored values, the magnitude and the
    sign flag as they were and moves the magnitude to index [k]. *)
Theorem magnitude_at_missing_index (x y z k : Z) :
  uint16 x -> uint16 y -> uint16 z -> 0 <= k <= 3 ->
  exists s sk : locals,
    unpack_locals x y z = Ok s /\
    missing_component s = Z.land (pack s) 3 /\
    0 <= missing_component s <= 3 /\
    nth_error (values s) (Z.to_nat (missing_component s))
      = Some (max_component s) /\
    values s =
      firstn (Z.to_nat (missing_component s)) [q1 s; q2 s; q3 s] ++
      max_component s ::
      skipn (Z.to_nat (missing_component s)) [q1 s; q2 s; q3 s] /\
    unpack_locals (set_low2 x k) y z = Ok sk /\
    q1 sk = q1 s /\ q2 sk = q2 s /\ q3 sk = q3 s /\
    max_component sk = max_component s /\
    is_negative sk = is_negative s /\
    missing_component sk = k /\
    nth_error (values sk) (Z.to_nat k) = Some (max_component s) /\
    values sk =
      firstn (Z.to_nat k) [q1 s; q2 s; q3 s] ++
      max_component s :: skipn (Z.to_nat k) [q1 s; q2 s; q3 s].
Proof.
  intros _ _ _ Hk.
  destruct (locals_congruence x y z (set_low2 x k) y z)
    as (s & sk & Hs & Hsk & E1 & E2 & E3 & Em & Hm & Hmk & Hn & Hnk & Hv & Hvk).
  { now rewrite !pack48_shiftr_3, shiftr_3_set_low2. }
  rewrite land_3_set_low2 in Hmk by assumption.
  rewrite land_4_set_low2 in Hnk by assumption.
  assert (Hp : pack s = pack48 x y z).
  { pose proof (unpack_locals_ok x y z) as Hs0. cbv zeta in Hs0.
    rewrite Hs in Hs0. now injection Hs0 as ->. }
  assert (Hr : 0 <= missing_component s <= 3)
    by (rewrite Hm; apply land_3_range).
  exists s, sk. rewrite Hv, Hvk, Hmk, <- E1, <- E2, <- E3, <- Em.
  repeat split; try assumption; try reflexivity; try lia.
  - now rewrite Hp, pack48_land_low by lia.
  - now apply insert_3_nth.
  - now apply insert_3.
  - congruence.
  - now apply insert_3_nth.
  - now apply insert_3.
Qed.

(** C10. The three flag bits do not reach the numbers: when two packs
    agree on every bit above bit 2, the three expanded values and the
    magnitude are the same in both runs, and the two outputs hold the same
    absolute values (as multisets), namely those of [q1, q2, q3] and the
    magnitude. *)
Theorem flag_bits_noninterference (x y z x' y' z' : Z) :
  uint16 x -> uint16 y -> uint16 z ->
  uint16 x' -> uint16 y' -> uint16 z' ->
  Z.shiftr (pack48 x y z) 3 = Z.shiftr (pack48 x' y' z') 3 ->
  exists (s s' : locals) (o o' : list F),
    unpack_locals x y z = Ok s /\ unpack_locals x' y' z' = Ok s' /\
    pack s = pack48 x y z /\ pack s' = pack48 x' y' z' /\
    q1 s = q1 s' /\ q2 s = q2 s' /\ q3 s = q3 s' /\
    max_component s = max_component s' /\
    unpack_48bit_quaternion x y z = Ok o /\
    unpack_48bit_quaternion x' y' z' = Ok o' /\
    Permutation (map fabs o)
                (map fabs [q1 s; q2 s; q3 s; max_component s]) /\
    Permutation (map fabs o) (map fabs o').
Proof.
  intros _ _ _ _ _ _ Hh.
  destruct (locals_congruence x y z x' y' z' Hh)
    as (s & s' & Hs & Hs' & E1 & E2 & E3 & Em & _).
  destruct (output_abs_permutation x y z s Hs) as (o & Ho & Hp).
  destruct (output_abs_permutation x' y' z' s' Hs') as (o' & Ho' & Hp').
  exists s, s', o, o'.
  pose proof (unpack_locals_ok x y z) as Hs0.
  pose proof (unpack_locals_ok x' y' z') as Hs0'.
  cbv zeta in Hs0, Hs0'. rewrite Hs in Hs0. rewrite Hs' in Hs0'.
  injection Hs0 as Hs0. injection Hs0' as Hs0'.
  repeat split; try assumption.
  - now rewrite Hs0.
  - now rewrite Hs0'.
  - rewrite Hp. rewrite <- E1, <- E2, <- E3, <- Em in Hp'.
    now apply Permutation_sym.
Qed.

End Structure.

(** ** Exact arithmetic: the model over the real numbers *)

Section ExactModel.

Local Open Scope R_scope.

Lemma expand_float_R (i : Z) :
  expand_float (F := R) i = IZR i * (PI / 2 / 32767) - PI / 4.
Proof. reflexivity. Qed.

Lemma expand_float_R_range (i : Z) :
  (0 <= i <= 32767)%Z ->
  - PI / 4 <= expand_float (F := R) i <= PI / 4.
Proof.
  intros [Hlo Hhi]. rewrite expand_float_R.
  apply IZR_le in Hlo. apply IZR_le in Hhi.
  pose proof PI_RGT_0 as Hpi.
  assert (Hc : 0 < PI / 2 / 32767) by (apply Rdiv_lt_0_compat; lra).
  assert (Htop : 32767 * (PI / 2 / 32767) = PI / 2) by (field; lra).
  pose proof (Rmult_le_compat_r _ _ _ (Rlt_le _ _ Hc) Hlo) as H0.
  pose proof (Rmult_le_compat_r _ _ _ (Rlt_le _ _ Hc) Hhi) as H1.
  lra.
Qed.

Lemma py_max_R_below (a : R) : a < 0 -> py_max a 0 = 0.
Proof.
  intros Ha. unfold py_max. simpl.
  destruct (Rlt_dec a 0); [reflexivity | contradiction].
Qed.

Lemma py_max_R_above (a : R) : 0 <= a -> py_max a 0 = a.
Proof.
  intros Ha. unfold py_max. simpl.
  destruct (Rlt_dec a 0); [lra | reflexivity].
Qed.

Lemma py_max_R_nonneg (a : R) : 0 <= py_max a 0.
Proof.
  destruct (Rlt_dec a 0) as [Ha | Ha].
  - rewrite py_max_R_below by assumption. lra.
  - rewrite py_max_R_above by lra. lra.
Qed.

Lemma magnitude_R_square (a b c : R) :
  a * a + b * b + c * c <= 1 ->
  magnitude a b c * magnitude a b c = 1 - (a * a + b * b + c * c).
Proof.
  intros Hs. unfold magnitude, sqrt_argument, sum_of_squares. simpl.
  rewrite py_max_R_above by lra. apply sqrt_sqrt. lra.
Qed.

Lemma sum_squares_permutation (l l' : list R) :
  Permutation l l' -> sum_squares l = sum_squares l'.
Proof.
  induction 1 as [| v l l' _ IH | v w l | l l' l'' _ IH1 _ IH2]; simpl.
  - reflexivity.
  - now rewrite IH.
  - ring.
  - now rewrite IH1.
Qed.

Lemma sum_squares_negated (l : list R) :
  sum_squares (map Ropp l) = sum_squares l.
Proof.
  induction l as [| v l IH]; simpl; [reflexivity |]. rewrite IH. ring.
Qed.

End ExactModel.

Section ExactClaims.

Local Open Scope R_scope.

(** Over the reals the squares of the four numbers returned sum to the
    squares of the three stored values plus that of the magnitude: neither
    the insertion, nor the rotation, nor the sign changes the sum. *)
Lemma output_sum_squares (x y z : Z) :
  let p := pack48 x y z in
  let a := expand_float (F := R) (field p 3) in
  let b := expand_float (F := R) (field p 18) in
  let c := expand_float (F := R) (field p 33) in
  exists (s : locals) (w i j k : R),
    unpack_locals x y z = Ok s /\
    q1 s = a /\ q2 s = b /\ q3 s = c /\
    is_negative s = negb (Z.land x 4 =? 0)%Z /\
    unpack_48bit_quaternion x y z = Ok [w; i; j; k] /\
    w * w + i * i + j * j + k * k =
    a * a + b * b + c * c + magnitude a b c * magnitude a b c.
Proof.
  intros p a b c.
  destruct (unpack_48bit_quaternion_ok (F := R) x y z)
    as (s & v0 & v1 & v2 & v3 & Hs & Hv & Hperm & Hout).
  pose proof (unpack_locals_ok (F := R) x y z) as Hs0. cbv zeta in Hs0.
  rewrite (pack48_land_low x y z 4) in Hs0 by lia.
  fold p in Hs0. fold a b c in Hs0.
  rewrite Hs in Hs0. injection Hs0 as Hs0.
  subst s. cbn [q1 q2 q3 max_component is_negative] in Hperm, Hout.
  assert (Hsq : sum_squares [v3; v0; v1; v2] =
                a * a + b * b + c * c + magnitude a b c * magnitude a b c).
  { rewrite (sum_squares_permutation [v3; v0; v1; v2] [v0; v1; v2; v3])
      by apply (Permutation_cons_append [v0; v1; v2] v3).
    rewrite (sum_squares_permutation _ _ Hperm).
    change (magnitude a b c) with (sqrt (sqrt_argument a b c)).
    simpl. ring. }
  pose proof (sum_squares_negated [v3; v0; v1; v2]) as Hn.
  simpl in Hn, Hsq.
  change (magnitude a b c) with (sqrt (sqrt_argument a b c)).
  destruct (negb (Z.land x 4 =? 0)%Z) eqn:Hneg.
  - eexists. exists (- v3), (- v0), (- v1), (- v2).
    split; [exact Hs |]. cbn [q1 q2 q3 is_negative].
    repeat split; try assumption. lra.
  - eexists. exists v3, v0, v1, v2.
    split; [exact Hs |]. cbn [q1 q2 q3 is_negative].
    repeat split; try assumption. lra.
Qed.

(** The three values stored in the words (42, 61442, 62196) are
    11 pi / 131068, -2047 pi / 131068 and 29429 pi / 131068. *)
Lemma known_vector_stored_sum :
  let p := pack48 42 61442 62196 in
  let a := expand_float (F := R) (field p 3) in
  let b := expand_float (F := R) (field p 18) in
  let c := expand_float (F := R) (field p 33) in
  a * a + b * b + c * c <= 1.
Proof.
  cbv zeta.
  change (field (pack48 42 61442 62196) 3) with 16389%Z.
  change (field (pack48 42 61442 62196) 18) with 15360%Z.
  change (field (pack48 42 61442 62196) 33) with 31098%Z.
  rewrite !expand_float_R.
  pose proof PI_RGT_0 as Hpi. pose proof PI_4 as Hpi4.
  replace (16389 * (PI / 2 / 32767) - PI / 4)
    with (PI * (11 / 131068)) by (field; lra).
  replace (15360 * (PI / 2 / 32767) - PI / 4)
    with (PI * (- 2047 / 131068)) by (field; lra).
  replace (31098 * (PI / 2 / 32767) - PI / 4)
    with (PI * (29429 / 131068)) by (field; lra).
  nra.
Qed.

(** C1. For 16-bit words whose three expanded values have squares summing
    to at most 1, the four numbers returned have squares summing to exactly
    1 over the reals, whether the sign flag is set or not. *)
Theorem unit_norm_exact (x y z : Z) :
  uint16 x -> uint16 y -> uint16 z ->
  let p := pack48 x y z in
  let a := expand_float (F := R) (field p 3) in
  let b := expand_float (F := R) (field p 18) in
  let c := expand_float (F := R) (field p 33) in
  a * a + b * b + c * c <= 1 ->
  exists (s : locals) (w i j k : R),
    unpack_locals x y z = Ok s /\
    q1 s = a /\ q2 s = b /\ q3 s = c /\
    is_negative s = negb (Z.land x 4 =? 0)%Z /\
    unpack_R x y z = Ok [w; i; j; k] /\
    w * w + i * i + j * j + k * k = 1.
Proof.
  intros _ _ _ p a b c Hsum.
  destruct (output_sum_squares x y z)
    as (s & w & i & j & k & Hs & Ha & Hb & Hc & Hneg & Hout & Hsq).
  fold p a b c in Ha, Hb, Hc, Hsq.
  exists s, w, i, j, k. repeat split; try assumption.
  rewrite Hsq, (magnitude_R_square a b c Hsum). ring.
Qed.

End ExactClaims.

(** ** The binary64 model: what CPython computes *)

Lemma all_from_spec (n : nat) (f : Z -> bool) :
  forall i : Z, all_from n i f = true ->
  forall j : Z, i <= j < i + Z.of_nat n -> f j = true.
Proof.
  induction n as [| n IH]; intros i Hall j Hj; [lia |].
  simpl in Hall. apply andb_prop in Hall as [Hi Hrest].
  destruct (Z.eq_dec j i) as [-> | Hne]; [assumption |].
  apply (IH (i + 1) Hrest). lia.
Qed.

(** In binary64 too the expansion stays in range, by running all 32768
    cases. *)
Lemma expand_float_b64_range (i : Z) :
  0 <= i <= 32767 -> in_quarter_range_b64 i = true.
Proof.
  intros Hi.
  apply (all_from_spec (Z.to_nat 32768) in_quarter_range_b64 0);
    [vm_compute; reflexivity | lia].
Qed.

(** ** Signs in the specification of binary64

    The kernel's float operations are specified on [spec_float]
    ([mul_spec], [add_spec], [sub_spec], [sqrt_spec], [ltb_spec], ...).
    The lemmas below follow the sign of a result through the rounding
    functions of that specification. *)

Lemma shr_1_nonneg (r : shr_record) : 0 <= shr_m r -> 0 <= shr_m (shr_1 r).
Proof.
  destruct r as [m r s]. simpl.
  destruct m as [| [p | p |] | p]; simpl; lia.
Qed.

Lemma iter_shr_1_nonneg (p : positive) :
  forall r : shr_record,
    0 <= shr_m r -> 0 <= shr_m (SpecFloat.iter_pos shr_1 p r).
Proof.
  induction p as [p IH | p IH |]; intros r Hr; simpl.
  - apply IH, IH, shr_1_nonneg, Hr.
  - apply IH, IH, Hr.
  - apply shr_1_nonneg, Hr.
Qed.

Lemma shr_fexp_nonneg (m e : Z) (l : location) :
  0 <= m -> 0 <= shr_m (fst (shr_fexp prec emax m e l)).
Proof.
  intros Hm. unfold shr_fexp, shr.
  assert (H0 : 0 <= shr_m (shr_record_of_loc m l))
    by (destruct l as [| []]; exact Hm).
  destruct (fexp prec emax (Zdigits2 m + e) - e) as [| p | p]; simpl;
    [exact H0 | apply iter_shr_1_nonneg, H0 | exact H0].
Qed.

Lemma round_nearest_even_nonneg (m : Z) (l : location) :
  0 <= m -> 0 <= round_nearest_even m l.
Proof.
  intros Hm. destruct l as [| []]; simpl; try lia.
  destruct (Z.even m); lia.
Qed.

(** Rounding keeps the sign it is given and never makes a NaN. *)
Lemma binary_round_aux_signed (sx : bool) (mx ex : Z) (lx : location) :
  0 <= mx -> signed_as sx (binary_round_aux prec emax sx mx ex lx).
Proof.
  intros Hm. unfold binary_round_aux.
  pose proof (shr_fexp_nonneg mx ex lx Hm) as H1.
  destruct (shr_fexp prec emax mx ex lx) as [mrs' e']. simpl in H1.
  pose proof (shr_fexp_nonneg _ e' loc_Exact
                (round_nearest_even_nonneg _ (loc_of_shr_record mrs') H1))
    as H2.
  destruct (shr_fexp prec emax _ e' loc_Exact) as [mrs'' e'']. simpl in H2.
  destruct (shr_m mrs'') as [| m | m]; simpl; try reflexivity; try lia.
  destruct (Z.leb _ _); cbn; reflexivity.
Qed.

Lemma binary_round_signed (sx : bool) (m : positive) (e : Z) :
  signed_as sx (binary_round prec emax sx m e).
Proof.
  unfold binary_round.
  destruct (shl_align m e _) as [mz ez].
  apply binary_round_aux_signed. lia.
Qed.

Lemma binary_normalize_sign (m e : Z) :
  match m with
  | Z0 => binary_normalize prec emax m e false = S754_zero false
  | Zpos _ => signed_as false (binary_normalize prec emax m e false)
  | Zneg _ => signed_as true (binary_normalize prec emax m e false)
  end.
Proof. destruct m; simpl; [reflexivity | |]; apply binary_round_signed. Qed.

Lemma signed_false_non_negative (r : spec_float) :
  signed_as false r -> non_negative r.
Proof. destruct r; simpl; auto. Qed.

(** The square of a number that is neither infinite nor NaN. *)
Lemma SFmul_square (x : spec_float) :
  match x with S754_zero _ | S754_finite _ _ _ => True | _ => False end ->
  non_negative (SFmul prec emax x x).
Proof.
  destruct x as [s | s | | s m e]; simpl; try contradiction; intros _.
  - exact I.
  - apply signed_false_non_negative.
    replace (xorb s s) with false by (now destruct s).
    apply binary_round_aux_signed. lia.
Qed.

Lemma SFadd_non_negative (x y : spec_float) :
  non_negative x -> non_negative y -> non_negative (SFadd prec emax x y).
Proof.
  destruct x as [sx | sx | | sx mx ex], y as [sy | sy | | sy my ey];
    simpl; try contradiction; intros Hx Hy; subst; simpl; auto.
  - destruct sx, sy; exact I.
  - apply signed_false_non_negative, binary_round_signed.
Qed.

(** Rounding a non-zero mantissa at an exponent of at least -1074 does
    not underflow to zero. *)
Lemma shr_1_div (r : shr_record) :
  0 <= shr_m r -> shr_m (shr_1 r) = shr_m r / 2.
Proof.
  destruct r as [m r s]. unfold shr_1. cbn [shr_m].
  destruct m as [| [p | p |] | p]; cbn [shr_m]; intros H; try lia.
  - reflexivity.
  - apply Z.div_unique with 1; lia.
  - apply Z.div_unique with 0; lia.
  - reflexivity.
Qed.

Lemma iter_shr_1_div (p : positive) :
  forall r : shr_record,
    0 <= shr_m r ->
    shr_m (SpecFloat.iter_pos shr_1 p r) = shr_m r / 2 ^ Z.pos p.
Proof.
  induction p as [p IH | p IH |]; intros r Hr; simpl SpecFloat.iter_pos.
  - assert (Hp : 0 < 2 ^ Z.pos p) by (apply Z.pow_pos_nonneg; lia).
    rewrite IH, IH, shr_1_div
      by auto using iter_shr_1_nonneg, shr_1_nonneg.
    rewrite !Z.div_div by lia. f_equal.
    replace (Z.pos p~1) with (1 + Z.pos p + Z.pos p) by lia.
    rewrite !Z.pow_add_r, Z.pow_1_r by lia. ring.
  - assert (Hp : 0 < 2 ^ Z.pos p) by (apply Z.pow_pos_nonneg; lia).
    rewrite IH, IH by auto using iter_shr_1_nonneg.
    rewrite !Z.div_div by lia. f_equal.
    replace (Z.pos p~0) with (Z.pos p + Z.pos p) by lia.
    rewrite !Z.pow_add_r by lia. ring.
  - rewrite shr_1_div by assumption. now rewrite Z.pow_1_r.
Qed.

Lemma digits2_pos_bounds (m : positive) :
  2 ^ (Z.pos (digits2_pos m) - 1) <= Z.pos m < 2 ^ Z.pos (digits2_pos m).
Proof.
  induction m as [m IH | m IH |]; simpl digits2_pos.
  - rewrite Pos2Z.inj_succ.
    replace (Z.succ (Z.pos (digits2_pos m)) - 1)
      with (Z.succ (Z.pos (digits2_pos m) - 1)) by lia.
    rewrite !Z.pow_succ_r by lia. lia.
  - rewrite Pos2Z.inj_succ.
    replace (Z.succ (Z.pos (digits2_pos m)) - 1)
      with (Z.succ (Z.pos (digits2_pos m) - 1)) by lia.
    rewrite !Z.pow_succ_r by lia. lia.
  - simpl. lia.
Qed.

Lemma shr_fexp_positive (m : positive) (e : Z) (l : location) :
  -1074 <= e ->
  0 < shr_m (fst (shr_fexp prec emax (Z.pos m) e l)) /\
  -1074 <= snd (shr_fexp prec emax (Z.pos m) e l).
Proof.
  intros He. unfold shr_fexp, shr.
  assert (H0 : shr_m (shr_record_of_loc (Z.pos m) l) = Z.pos m)
    by (destruct l as [| []]; reflexivity).
  cbn [Zdigits2].
  pose proof (digits2_pos_bounds m) as [Hlo Hhi].
  set (d := Z.pos (digits2_pos m)) in *.
  assert (Hf : fexp prec emax (d + e) - e = Z.max (d - 53) (-1074 - e))
    by (unfold fexp, SpecFloat.emin, prec, emax; lia).
  rewrite Hf.
  destruct (Z.max (d - 53) (-1074 - e)) as [| n | n] eqn:En; cbn [fst snd].
  - rewrite H0. lia.
  - split; [| lia].
    rewrite iter_shr_1_div, H0 by (rewrite H0; lia).
    assert (Hn : Z.pos n = d - 53) by lia.
    apply Z.lt_le_trans with (2 ^ 52); [reflexivity |].
    apply Z.div_le_lower_bound; [apply Z.pow_pos_nonneg; lia |].
    rewrite Hn, <- Z.pow_add_r by lia.
    replace (d - 53 + 52) with (d - 1) by lia. exact Hlo.
  - rewrite H0. lia.
Qed.

Lemma round_nearest_even_ge (m : Z) (l : location) :
  m <= round_nearest_even m l.
Proof.
  destruct l as [| []]; simpl; try lia. destruct (Z.even m); lia.
Qed.

Lemma binary_round_aux_not_zero
  (sx : bool) (m : positive) (e : Z) (l : location) :
  -1074 <= e ->
  nonzero_signed sx (binary_round_aux prec emax sx (Z.pos m) e l).
Proof.
  intros He. unfold binary_round_aux.
  destruct (shr_fexp_positive m e l He) as [H1 H1e].
  destruct (shr_fexp prec emax (Z.pos m) e l) as [mrs' e'].
  cbn [fst snd] in H1, H1e.
  pose proof (round_nearest_even_ge (shr_m mrs') (loc_of_shr_record mrs'))
    as Hr.
  destruct (round_nearest_even (shr_m mrs') (loc_of_shr_record mrs'))
    as [| m2 | m2]; try lia.
  destruct (shr_fexp_positive m2 e' loc_Exact H1e) as [H2 _].
  destruct (shr_fexp prec emax (Z.pos m2) e' loc_Exact) as [mrs'' e''].
  cbn [fst] in H2.
  destruct (shr_m mrs'') as [| m3 | m3]; try lia.
  destruct (Z.leb _ _); reflexivity.
Qed.

Lemma binary_round_not_zero (sx : bool) (m : positive) (e : Z) :
  -1074 <= e -> nonzero_signed sx (binary_round prec emax sx m e).
Proof.
  intros He. unfold binary_round.
  destruct (shl_align m e _) as [mz ez] eqn:E.
  apply binary_round_aux_not_zero.
  unfold shl_align in E.
  destruct (_ - e) eqn:Ed; injection E as <- <-; try lia.
  unfold fexp, SpecFloat.emin, prec, emax. lia.
Qed.

(** Aligning two mantissas, as [SFsub] does before it subtracts. *)
Lemma pos_iter_xO (m d : positive) :
  Z.pos (Pos.iter xO m d) = Z.pos m * 2 ^ Z.pos d.
Proof.
  induction d as [| d IH] using Pos.peano_ind.
  - simpl. lia.
  - rewrite Pos.iter_succ, Pos2Z.inj_xO, IH, Pos2Z.inj_succ, Z.pow_succ_r
      by lia.
    lia.
Qed.

Lemma shl_align_value (mx : positive) (ex ez : Z) :
  ez <= ex -> Z.pos (fst (shl_align mx ex ez)) = Z.pos mx * 2 ^ (ex - ez).
Proof.
  intros Hle. unfold shl_align.
  destruct (ez - ex) as [| d | d] eqn:E; cbn [fst].
  - replace (ex - ez) with 0 by lia. now rewrite Z.pow_0_r, Z.mul_1_r.
  - lia.
  - replace (ex - ez) with (Z.pos d) by lia. apply pos_iter_xO.
Qed.

(** A valid binary64 mantissa has at most 53 bits, and exactly 53 above
    the subnormal exponent. *)
Lemma valid_finite_digits (s : bool) (m : positive) (e : Z) :
  valid_binary (S754_finite s m e) = true ->
  Z.pos m < 2 ^ 53 /\ (-1074 < e -> 2 ^ 52 <= Z.pos m).
Proof.
  unfold valid_binary, SpecFloat.valid_binary, bounded, canonical_mantissa,
    fexp, SpecFloat.emin, prec, emax.
  intros H. apply andb_prop in H as [H _]. apply Z.eqb_eq in H.
  unfold SpecFloat.fexp, SpecFloat.emin in H.
  pose proof (digits2_pos_bounds m) as [Hlo Hhi].
  assert (Hd : Z.pos (digits2_pos m) <= 53) by lia.
  split.
  - apply Z.lt_le_trans with (1 := Hhi). apply Z.pow_le_mono_r; lia.
  - intros He. assert (Z.pos (digits2_pos m) = 53) by lia.
    replace 52 with (Z.pos (digits2_pos m) - 1) by lia. exact Hlo.
Qed.

Lemma SFcompare_finite_pos (m1 m2 : positive) (e1 e2 : Z) :
  SFcompare (S754_finite false m1 e1) (S754_finite false m2 e2) =
  Some match e1 ?= e2 with
       | Lt => Lt
       | Gt => Gt
       | Eq => (m1 ?= m2)%positive
       end.
Proof. reflexivity. Qed.

(** [1.0 - x] for a non-negative [x] that is at most 1.0: not negative. *)
Lemma SFsub_one_le (x : spec_float) :
  non_negative x -> valid_binary x = true ->
  SFleb x SFone64 = true ->
  non_negative (SFsub prec emax SFone64 x).
Proof.
  unfold SFone64.
  destruct x as [s | s | | s m e]; cbn [non_negative SFsub];
    try contradiction.
  - intros _ _ _. reflexivity.
  - intros -> _. discriminate.
  - intros -> Hv Hle.
    destruct (valid_finite_digits _ _ _ Hv) as [Hm _].
    unfold SFleb in Hle. rewrite SFcompare_finite_pos in Hle.
    unfold cond_Zopp.
    assert (Hd : 0 <= Z.pos (fst (shl_align 4503599627370496 (-52)
                                             (Z.min (-52) e)))
                      - Z.pos (fst (shl_align m e (Z.min (-52) e)))).
    { rewrite !shl_align_value by lia.
      destruct (Z.compare_spec e (-52)) as [-> | Hlt | Hgt]; try discriminate.
      - rewrite Z.min_id, Z.sub_diag. rewrite Z.pow_0_r.
        destruct (Pos.compare_spec m 4503599627370496) as [Hc | Hc | Hc];
          try discriminate.
        * subst m. lia.
        * apply Pos2Z.pos_lt_pos in Hc. lia.
      - rewrite Z.min_r, Z.sub_diag by lia. rewrite Z.pow_0_r.
        assert (H2 : 2 ^ 1 <= 2 ^ (-52 - e)) by (apply Z.pow_le_mono_r; lia).
        rewrite Z.pow_1_r in H2.
        assert (H53 : 2 ^ 53 = 9007199254740992) by reflexivity.
        rewrite H53 in Hm. nia. }
    pose proof (binary_normalize_sign
      (Z.pos (fst (shl_align 4503599627370496 (-52) (Z.min (-52) e)))
       - Z.pos (fst (shl_align m e (Z.min (-52) e)))) (Z.min (-52) e)) as Hn.
    destruct (Z.pos _ - Z.pos _) as [| p | p]; try lia.
    + rewrite Hn. exact I.
    + apply signed_false_non_negative, Hn.
Qed.

(** [1.0 - x] for an [x] above 1.0: negative and not a zero. *)
Lemma SFsub_one_gt (x : spec_float) :
  non_negative x -> valid_binary x = true ->
  SFltb SFone64 x = true ->
  nonzero_signed true (SFsub prec emax SFone64 x).
Proof.
  unfold SFone64.
  destruct x as [s | s | | s m e]; cbn [non_negative SFsub];
    try contradiction.
  - intros _ _ H. discriminate.
  - intros -> _ _. reflexivity.
  - intros -> Hv Hlt.
    destruct (valid_finite_digits _ _ _ Hv) as [_ Hm].
    unfold SFltb in Hlt. rewrite SFcompare_finite_pos in Hlt.
    unfold cond_Zopp.
    assert (He : -52 <= e)
      by (destruct (Z.compare_spec (-52) e); try discriminate; lia).
    assert (Hd : Z.pos (fst (shl_align 4503599627370496 (-52)
                                        (Z.min (-52) e)))
                 - Z.pos (fst (shl_align m e (Z.min (-52) e))) < 0).
    { rewrite !shl_align_value by lia.
      destruct (Z.compare_spec (-52) e) as [<- | Hl | Hg]; try discriminate.
      - rewrite Z.min_id, Z.sub_diag, Z.pow_0_r.
        destruct (Pos.compare_spec 4503599627370496 m) as [Hc | Hc | Hc];
          try discriminate.
        apply Pos2Z.pos_lt_pos in Hc. lia.
      - rewrite Z.min_l, Z.sub_diag, Z.pow_0_r by lia.
        assert (H2 : 2 ^ 1 <= 2 ^ (e - -52)) by (apply Z.pow_le_mono_r; lia).
        rewrite Z.pow_1_r in H2.
        assert (H52 : 2 ^ 52 = 4503599627370496) by reflexivity.
        assert (Hm' : 4503599627370496 <= Z.pos m)
          by (rewrite <- H52; apply Hm; lia).
        nia. }
    destruct (Z.pos _ - Z.pos _) as [| p | p]; try lia.
    cbn [binary_normalize]. apply binary_round_not_zero. lia.
Qed.

(** A non-negative number is at most one or above one: no NaN escapes
    both comparisons. *)
Lemma SFcompare_one_total (x : spec_float) :
  non_negative x -> SFleb x SFone64 = true \/ SFltb SFone64 x = true.
Proof.
  unfold SFone64.
  destruct x as [s | s | | s m e]; cbn [non_negative]; try contradiction.
  - intros _. left. reflexivity.
  - intros ->. right. reflexivity.
  - intros ->. unfold SFleb, SFltb.
    rewrite (SFcompare_finite_pos m _ e _), (SFcompare_finite_pos _ m _ e).
    rewrite (Z.compare_antisym e (-52)),
      (Pos.compare_antisym m 4503599627370496).
    destruct (e ?= -52); simpl; auto.
    destruct (m ?= 4503599627370496)%positive; simpl; auto.
Qed.

Lemma SFltb_zero_non_negative (x : spec_float) :
  non_negative x -> SFltb x (S754_zero false) = false.
Proof.
  destruct x as [s | s | | s m e]; simpl; try contradiction;
    intros H; try subst s; reflexivity.
Qed.

Lemma SFltb_zero_nonzero_negative (x : spec_float) :
  nonzero_signed true x -> SFltb x (S754_zero false) = true.
Proof.
  destruct x as [s | s | | s m e]; simpl; try contradiction; intros ->;
    reflexivity.
Qed.

Lemma SFleb_zero_non_negative (x : spec_float) :
  non_negative x -> SFleb (S754_zero false) x = true.
Proof.
  destruct x as [s | s | | s m e]; simpl; try contradiction;
    intros H; try subst s; reflexivity.
Qed.

Lemma SFeqb_refl_non_negative (x : spec_float) :
  non_negative x -> SFeqb x x = true.
Proof.
  destruct x as [s | s | | s m e]; simpl; try contradiction.
  - reflexivity.
  - now intros ->.
  - intros ->. unfold SFeqb. rewrite SFcompare_finite_pos.
    now rewrite Z.compare_refl, Pos.compare_refl.
Qed.

(** The root of a non-negative number is a non-negative number. *)
Lemma SFsqrt_non_negative (x : spec_float) :
  non_negative x -> non_negative (SFsqrt prec emax x).
Proof.
  destruct x as [s | s | | s m e]; cbn [non_negative SFsqrt];
    try contradiction.
  - intros _. exact I.
  - intros ->. reflexivity.
  - intros ->.
    destruct (SFsqrt_core_binary prec emax (Z.pos m) e) as [[mz ez] lz] eqn:E.
    apply signed_false_non_negative, binary_round_aux_signed.
    unfold SFsqrt_core_binary in E.
    set (m' := match _ - _ with Z.pos _ => _ | _ => _ end) in E.
    assert (Hm' : 0 <= m').
    { unfold m'. destruct (_ - _); try lia. apply Z.shiftl_nonneg. lia. }
    pose proof (Z.sqrtrem_spec m' Hm') as Hs.
    destruct (Z.sqrtrem m') as [q r]. injection E as <- _ _. lia.
Qed.

(** ** The same on the kernel's floats *)

Lemma in_quarter_range_finite (v : float) :
  PrimFloat.leb (fneg PI_QUARTER) v = true ->
  PrimFloat.leb v PI_QUARTER = true ->
  b64_finite v.
Proof.
  rewrite !leb_spec. unfold b64_finite.
  assert (E1 : Prim2SF (fneg PI_QUARTER)
               = S754_finite true 7074237752028440 (-53))
    by (vm_compute; reflexivity).
  assert (E2 : Prim2SF (PI_QUARTER (F := float))
               = S754_finite false 7074237752028440 (-53))
    by (vm_compute; reflexivity).
  rewrite E1, E2.
  destruct (Prim2SF v) as [s | [|] | | s m e]; auto; discriminate.
Qed.

Lemma expand_float_b64_finite (i : Z) :
  0 <= i <= 32767 -> b64_finite (expand_float (F := float) i).
Proof.
  intros Hi. pose proof (expand_float_b64_range i Hi) as H.
  apply andb_prop in H as [H1 H2]. now apply in_quarter_range_finite.
Qed.

Lemma square_non_negative (v : float) :
  b64_finite v -> b64_non_negative (PrimFloat.mul v v).
Proof.
  unfold b64_finite, b64_non_negative. rewrite mul_spec. apply SFmul_square.
Qed.

Lemma add_non_negative (a b : float) :
  b64_non_negative a -> b64_non_negative b ->
  b64_non_negative (PrimFloat.add a b).
Proof.
  unfold b64_non_negative. rewrite add_spec. apply SFadd_non_negative.
Qed.

Lemma sum_of_squares_non_negative (a b c : float) :
  b64_finite a -> b64_finite b -> b64_finite c ->
  b64_non_negative (sum_of_squares a b c).
Proof.
  intros Ha Hb Hc. unfold sum_of_squares.
  repeat apply add_non_negative; now apply square_non_negative.
Qed.

Lemma Prim2SF_one : Prim2SF (of_int (F := float) 1) = SFone64.
Proof. vm_compute. reflexivity. Qed.

(** What a non-negative number answers to Python's tests: it equals
    itself (so it is not NaN), [0.0 <= v] holds and [v < 0.0] does not. *)
Lemma non_negative_facts (v : float) :
  b64_non_negative v ->
  PrimFloat.is_nan v = false /\ PrimFloat.leb 0 v = true /\
  PrimFloat.ltb v 0 = false.
Proof.
  unfold b64_non_negative, PrimFloat.is_nan. intros H.
  rewrite FloatAxioms.eqb_spec, leb_spec, ltb_spec.
  change (Prim2SF 0) with (S754_zero false).
  rewrite (SFeqb_refl_non_negative _ H).
  repeat split; [apply SFleb_zero_non_negative
                | apply SFltb_zero_non_negative]; exact H.
Qed.

(** The clamp and the root, for any non-negative sum [S] of squares. *)
Lemma clamp_b64_cases (S : float) :
  b64_non_negative S ->
  let d := PrimFloat.sub (of_int 1) S in
  let arg := py_max d (of_int 0) in
  let m := PrimFloat.sqrt arg in
  b64_non_negative arg /\ b64_non_negative m /\
  (PrimFloat.ltb 1 S = true \/ PrimFloat.leb S 1 = true) /\
  (PrimFloat.ltb 1 S = true -> PrimFloat.ltb d 0 = true /\ m = 0%float) /\
  (PrimFloat.leb S 1 = true -> PrimFloat.ltb d 0 = false /\
                               m = PrimFloat.sqrt d).
Proof.
  intros HS d arg m. unfold b64_non_negative in HS.
  pose proof (Prim2SF_valid S) as Hv.
  assert (Ed : Prim2SF d = SFsub prec emax SFone64 (Prim2SF S)).
  { unfold d. rewrite sub_spec, Prim2SF_one. reflexivity. }
  assert (Hle : PrimFloat.leb S 1 = true ->
                PrimFloat.ltb d 0 = false /\ arg = d /\ b64_non_negative d).
  { intros H. rewrite leb_spec in H. change (Prim2SF 1) with SFone64 in H.
    pose proof (SFsub_one_le _ HS Hv H) as Hd. rewrite <- Ed in Hd.
    destruct (non_negative_facts d Hd) as (_ & _ & Hlt).
    split; [exact Hlt |]. split; [| exact Hd].
    unfold arg, py_max.
    change (flt d (of_int 0)) with (PrimFloat.ltb d 0).
    rewrite Hlt. reflexivity. }
  assert (Hgt : PrimFloat.ltb 1 S = true ->
                PrimFloat.ltb d 0 = true /\ arg = 0%float).
  { intros H. rewrite ltb_spec in H. change (Prim2SF 1) with SFone64 in H.
    pose proof (SFsub_one_gt _ HS Hv H) as Hd. rewrite <- Ed in Hd.
    assert (Hlt : PrimFloat.ltb d 0 = true).
    { rewrite ltb_spec. change (Prim2SF 0) with (S754_zero false).
      apply SFltb_zero_nonzero_negative, Hd. }
    split; [exact Hlt |].
    unfold arg, py_max.
    change (flt d (of_int 0)) with (PrimFloat.ltb d 0).
    rewrite Hlt. reflexivity. }
  assert (Htot : PrimFloat.ltb 1 S = true \/ PrimFloat.leb S 1 = true).
  { rewrite ltb_spec, leb_spec. change (Prim2SF 1) with SFone64.
    destruct (SFcompare_one_total _ HS); auto. }
  assert (Harg : b64_non_negative arg).
  { destruct Htot as [H | H].
    - destruct (Hgt H) as [_ ->]. exact I.
    - destruct (Hle H) as (_ & -> & Hd). exact Hd. }
  split; [exact Harg |]. split.
  - unfold m, b64_non_negative. rewrite sqrt_spec.
    apply SFsqrt_non_negative, Harg.
  - split; [exact Htot |]. split.
    + intros H. destruct (Hgt H) as [Hlt Ea]. split; [exact Hlt |].
      unfold m. rewrite Ea. reflexivity.
    + intros H. destruct (Hle H) as (Hlt & Ea & _). split; [exact Hlt |].
      unfold m. now rewrite Ea.
Qed.

(** ** Expansion, clamp and the known vector, in both models *)

(** C6. The expansion maps 0 to -pi/4 and 32767 to pi/2 - pi/4 = pi/4, it
    is [i * (pi/2 / 32767) - pi/4] (with 32768 as divisor the upper end
    would fall short of pi/4), and it stays within [-pi/4, pi/4] for every
    15-bit [i].  The binary64 computation hits both end points exactly and
    stays in range as well. *)
Theorem expand_float_domain (i : Z) :
  0 <= i <= 32767 ->
  (expand_float (F := R) 0 = - PI / 4)%R /\
  (expand_float (F := R) 32767 = PI / 2 - PI / 4)%R /\
  (expand_float (F := R) 32767 = PI / 4)%R /\
  (32767 * (PI / 2 / 32768) - PI / 4 < PI / 4)%R /\
  (expand_float (F := R) i = IZR i * (PI / 2 / 32767) - PI / 4)%R /\
  (- PI / 4 <= expand_float (F := R) i <= PI / 4)%R /\
  expand_float (F := float) 0 = fneg PI_QUARTER /\
  expand_float (F := float) 32767 = fsub PI_HALF PI_QUARTER /\
  expand_float (F := float) 32767 = PI_QUARTER /\
  PrimFloat.leb (fneg PI_QUARTER) (expand_float (F := float) i) = true /\
  PrimFloat.leb (expand_float (F := float) i) PI_QUARTER = true.
Proof.
  intros Hi. pose proof PI_RGT_0 as Hpi.
  split; [rewrite expand_float_R; lra |].
  split; [rewrite expand_float_R; field |].
  split; [rewrite expand_float_R; field |].
  split; [lra |].
  split; [apply expand_float_R |].
  split; [now apply expand_float_R_range |].
  split; [vm_compute; reflexivity |].
  split; [vm_compute; reflexivity |].
  split; [vm_compute; reflexivity |].
  apply andb_prop. exact (expand_float_b64_range i Hi).
Qed.

(** C2. The number handed to [math.sqrt] is never negative, so the call
    never fails and the magnitude is a non-negative root: it is 0 when the
    squares of the three expanded values sum to more than 1, and
    [sqrt (1 - sum)] otherwise.  Over binary64 this is a statement about
    the floats that CPython computes: the sum of squares, the clamped
    argument and the magnitude are never NaN, the argument and the
    magnitude are not below zero, the sum is either above 1.0 or at most
    1.0 (a NaN would be neither), the magnitude is the float 0.0 in the
    first case and the root of [1.0 - sum] in the second, and these are
    the two branches of the clamp. *)
Theorem magnitude_clamped (x y z : Z) :
  uint16 x -> uint16 y -> uint16 z ->
  (exists s : locals (F := R),
     unpack_locals x y z = Ok s /\
     let sum := (q1 s * q1 s + q2 s * q2 s + q3 s * q3 s)%R in
     let arg := py_max (1 - sum)%R 0%R in
     math_sqrt arg = Ok (max_component s) /\
     (0 <= arg)%R /\
     max_component s = sqrt arg /\
     (0 <= max_component s)%R /\
     ((1 < sum)%R -> max_component s = 0%R) /\
     ((sum <= 1)%R -> max_component s = sqrt (1 - sum))) /\
  (exists s : locals (F := float),
     unpack_locals x y z = Ok s /\
     let sum := sum_of_squares (q1 s) (q2 s) (q3 s) in
     let d := fsub (of_int 1) sum in
     let arg := py_max d (of_int 0) in
     math_sqrt arg = Ok (max_component s) /\
     max_component s = PrimFloat.sqrt arg /\
     PrimFloat.is_nan sum = false /\
     PrimFloat.is_nan arg = false /\
     PrimFloat.leb 0 arg = true /\
     PrimFloat.ltb arg 0 = false /\
     PrimFloat.is_nan (max_component s) = false /\
     PrimFloat.leb 0 (max_component s) = true /\
     PrimFloat.ltb (max_component s) 0 = false /\
     (PrimFloat.ltb 1 sum = true \/ PrimFloat.leb sum 1 = true) /\
     (PrimFloat.ltb 1 sum = true -> max_component s = 0%float) /\
     (PrimFloat.leb sum 1 = true -> max_component s = PrimFloat.sqrt d) /\
     (PrimFloat.ltb 1 sum = true -> PrimFloat.ltb d 0 = true) /\
     (PrimFloat.leb sum 1 = true -> PrimFloat.ltb d 0 = false) /\
     (PrimFloat.ltb d 0 = true -> max_component s = 0%float) /\
     (PrimFloat.ltb d 0 = false -> max_component s = PrimFloat.sqrt d)).
Proof.
  intros _ _ _. split.
  - eexists. split; [apply unpack_locals_ok |].
    cbn [q1 q2 q3 max_component].
    set (a := expand_float (field (pack48 x y z) 3)).
    set (b := expand_float (field (pack48 x y z) 18)).
    set (c := expand_float (field (pack48 x y z) 33)).
    set (sum := (a * a + b * b + c * c)%R).
    set (arg := py_max (1 - sum)%R 0%R).
    destruct (magnitude_clamp a b c) as (Hsqrt & _ & _ & _).
    assert (Harg : (0 <= arg)%R) by apply py_max_R_nonneg.
    split; [exact Hsqrt |]. split; [exact Harg |].
    split; [reflexivity |]. split; [apply sqrt_pos |].
    split; intros Hsum; change (magnitude a b c) with (sqrt arg); unfold arg.
    + rewrite py_max_R_below by lra. apply sqrt_0.
    + rewrite py_max_R_above by lra. reflexivity.
  - eexists. split; [apply unpack_locals_ok |].
    cbn [q1 q2 q3 max_component].
    set (a := expand_float (field (pack48 x y z) 3)).
    set (b := expand_float (field (pack48 x y z) 18)).
    set (c := expand_float (field (pack48 x y z) 33)).
    assert (HS : b64_non_negative (sum_of_squares a b c))
      by (apply sum_of_squares_non_negative;
          apply expand_float_b64_finite, field_range).
    destruct (magnitude_clamp (F := float) a b c)
      as (Hsqrt & _ & Hneg & Hpos).
    destruct (clamp_b64_cases _ HS) as (Harg & Hm & Htot & Hgt & Hle).
    destruct (non_negative_facts _ HS) as (Hn1 & _ & _).
    destruct (non_negative_facts _ Harg) as (Hn2 & Hl2 & Hlt2).
    destruct (non_negative_facts _ Hm) as (Hn3 & Hl3 & Hlt3).
    cbv zeta.
    split; [exact Hsqrt |]. split; [reflexivity |].
    split; [exact Hn1 |]. split; [exact Hn2 |]. split; [exact Hl2 |].
    split; [exact Hlt2 |].
    split; [exact Hn3 |]. split; [exact Hl3 |]. split; [exact Hlt3 |].
    split; [exact Htot |].
    split; [intros H0; apply (Hgt H0) |].
    split; [intros H0; apply (Hle H0) |].
    split; [intros H0; apply (Hgt H0) |].
    split; [intros H0; apply (Hle H0) |].
    split; [exact Hneg | exact Hpos].
Qed.

(** C8. On the words (42, 61442, 62196) the binary64 computation returns
    four finite numbers whose squares, summed exactly, are within 1e-6 of
    1; summed in binary64, as a test would, the deviation is below 1e-6 as
    well.  Over the reals the norm is exactly 1. *)
Theorem known_vector_unit_norm :
  (exists w i j k : float,
     unpack_b64 42 61442 62196 = Ok [w; i; j; k] /\
     (exists qw qi qj qk : Q,
        b64_to_Q w = Some qw /\ b64_to_Q i = Some qi /\
        b64_to_Q j = Some qj /\ b64_to_Q k = Some qk /\
        (Qabs (qw * qw + qi * qi + qj * qj + qk * qk - 1) < 1 # 1000000)%Q) /\
     PrimFloat.ltb
       (PrimFloat.abs (w * w + i * i + j * j + k * k - 1))
       0x1.0c6f7a0b5ed8dp-20 = true) /\
  (exists w i j k : R,
     unpack_R 42 61442 62196 = Ok [w; i; j; k] /\
     (w * w + i * i + j * j + k * k = 1)%R).
Proof.
  split.
  - do 4 eexists. split; [vm_compute; reflexivity |].
    split; [| vm_compute; reflexivity].
    do 4 eexists. repeat (split; [vm_compute; reflexivity |]).
    vm_compute. reflexivity.
  - destruct (output_sum_squares 42 61442 62196)
      as (s & w & i & j & k & _ & _ & _ & _ & _ & Hout & Hsq).
    exists w, i, j, k. split; [exact Hout |].
    rewrite Hsq, (magnitude_R_square _ _ _ known_vector_stored_sum). ring.
Qed.

(** ** The wrapper: what it returns and what it lets through *)

Ltac run_script :=
  unfold Bnsh.main, Bnsh.sys_exit, Bnsh.convert_bnsh, Bnsh.try_except,
    Bnsh.subprocess_run, Bnsh.glob, Bnsh.exists_, Bnsh.print, Bnsh.bind,
    Bnsh.ret; cbn [Bnsh.files Bnsh.console Bnsh.invocations].

Section BnshFacts.

Context {os : Bnsh.OS}.

Local Open Scope string_scope.

(** A missing input file: [False], one message, nothing started, the file
    system untouched. *)
Lemma convert_bnsh_missing_input (input_file output_dir : string)
  (w : Bnsh.world) :
  Bnsh.path_exists (Bnsh.files w) (Bnsh.absolute input_file)
    = Bnsh.Val false ->
  Bnsh.convert_bnsh input_file output_dir w =
  (Bnsh.Val false,
   {| Bnsh.files := Bnsh.files w;
      Bnsh.console :=
        Bnsh.console w ++ [Bnsh.InputMissing (Bnsh.absolute input_file)];
      Bnsh.invocations := Bnsh.invocations w |}).
Proof. intros He. run_script. rewrite He. reflexivity. Qed.

(** The check of the input path stands before the [try]: what it raises
    leaves [convert_bnsh]. *)
Lemma convert_bnsh_input_raises (input_file output_dir : string)
  (w : Bnsh.world) (e : Bnsh.py_exception) :
  Bnsh.path_exists (Bnsh.files w) (Bnsh.absolute input_file) = Bnsh.Exc e ->
  Bnsh.convert_bnsh input_file output_dir w = (Bnsh.Exc e, w).
Proof. intros He. run_script. rewrite He. reflexivity. Qed.

(** [True] is returned only after the executable ran and exited with 0,
    and it ran exactly once. *)
Lemma convert_bnsh_true (input_file output_dir : string)
  (w w' : Bnsh.world) :
  Bnsh.convert_bnsh input_file output_dir w = (Bnsh.Val true, w') ->
  exists f : Bnsh.fs,
    Bnsh.launch (command input_file output_dir) (Bnsh.files w)
      = (Bnsh.Exited 0, f) /\
    Bnsh.files w' = f /\
    Bnsh.invocations w' =
      (Bnsh.invocations w ++ [command input_file output_dir])%list.
Proof.
  unfold command. run_script.
  destruct (Bnsh.path_exists (Bnsh.files w) (Bnsh.absolute input_file))
    as [[|] | e0]; cbn; try discriminate.
  destruct (negb (Bnsh.suffix_lower (Bnsh.absolute input_file) =? ".bnsh"));
    cbn;
    (destruct (Bnsh.path_exists (Bnsh.files w) Bnsh.BNSH_TO_GLSL_EXE)
       as [[|] | e1]; cbn; try discriminate);
    (destruct (Bnsh.launch _ (Bnsh.files w)) as [[c | t] f];
     cbn; [| discriminate]);
    (destruct (Z.eqb_spec c 0) as [-> | Hc]; cbn; [| discriminate]);
    (destruct (Bnsh.path_exists f (Bnsh.absolute output_dir))
       as [[|] | [rc | t]]; cbn;
     [destruct (Bnsh.path_glob f _ _) as [l | [rc | t]]; cbn | | |]);
    intros Heq; try discriminate; injection Heq as <-; cbn; eauto.
Qed.

(** An exit code other than 0, or a process that cannot be started, never
    gives [True]. *)
Lemma convert_bnsh_tool_failure (input_file output_dir : string)
  (w w' : Bnsh.world) (r : Bnsh.launch_result) (f : Bnsh.fs) :
  Bnsh.launch (command input_file output_dir) (Bnsh.files w) = (r, f) ->
  r <> Bnsh.Exited 0 ->
  Bnsh.convert_bnsh input_file output_dir w <> (Bnsh.Val true, w').
Proof.
  intros Hl Hr Hrun.
  destruct (convert_bnsh_true _ _ _ _ Hrun) as (f' & Hl' & _).
  rewrite Hl in Hl'. injection Hl' as -> _. contradiction.
Qed.


End BnshFacts.

(** C9 (a defect of the code).  The input name is 256 letters [a]; no
    such file exists.  [Path.exists] raises OSError (file name too long)
    for such a name, and the check of the input path stands before the
    [try]: the exception leaves [convert_bnsh], which returns neither
    [False] nor anything else and prints no message, and it leaves [main],
    so the process ends on the traceback with status 1; nothing is
    started.  The same error from the check of the output path, which
    stands inside the [try], is caught and turned into [False]. *)
Theorem missing_input_check_escapes :
  let too_long := Bnsh.OtherException "File name too long" in
  let argv := ["bnsh2glsl.py"; long_name; "out"]%string in
  String.length long_name = 256%nat /\
  existsb (String.eqb long_name) (Bnsh.files toy_world) = false /\
  Bnsh.path_exists (OS := toy_os) (Bnsh.files toy_world)
    (Bnsh.absolute (OS := toy_os) long_name) = Bnsh.Exc too_long /\
  Bnsh.convert_bnsh (os := toy_os) long_name "out" toy_world
    = (Bnsh.Exc too_long, toy_world) /\
  (forall (ok : bool) (w' : Bnsh.world (os := toy_os)),
     Bnsh.convert_bnsh long_name "out" toy_world <> (Bnsh.Val ok, w')) /\
  Bnsh.main (os := toy_os) argv toy_world = (Bnsh.Exc too_long, toy_world) /\
  Bnsh.exit_status (fst (Bnsh.main (os := toy_os) argv toy_world)) = 1 /\
  Bnsh.console (snd (Bnsh.main (os := toy_os) argv toy_world)) = [] /\
  Bnsh.invocations (snd (Bnsh.main (os := toy_os) argv toy_world)) = [] /\
  fst (Bnsh.convert_bnsh (os := toy_os) "good.bnsh" long_name toy_world)
    = Bnsh.Val false /\
  last (Bnsh.console
          (snd (Bnsh.convert_bnsh (os := toy_os)
                  "good.bnsh" long_name toy_world))) Bnsh.Blank = Bnsh.Rule /\
  In (Bnsh.ErrorText too_long)
     (Bnsh.console
        (snd (Bnsh.convert_bnsh (os := toy_os)
                "good.bnsh" long_name toy_world))).
Proof.
  cbv zeta.
  split; [vm_compute; reflexivity |].
  split; [vm_compute; reflexivity |].
  split; [vm_compute; reflexivity |].
  split; [vm_compute; reflexivity |].
  split.
  { intros ok w' H.
    assert (E : Bnsh.convert_bnsh (os := toy_os) long_name "out" toy_world
                = (Bnsh.Exc (Bnsh.OtherException "File name too long"),
                   toy_world)) by (vm_compute; reflexivity).
    rewrite E in H. discriminate H. }
  split; [vm_compute; reflexivity |].
  split; [vm_compute; reflexivity |].
  split; [vm_compute; reflexivity |].
  split; [vm_compute; reflexivity |].
  split; [vm_compute; reflexivity |].
  split; [vm_compute; reflexivity |].
  vm_compute. auto 20.
Qed.

(** * Concrete runs *)

(** The words of the script's own call: pack, fields and the binary64
    result, as mantissa and exponent. *)
Example known_vector_fields :
  pack48 42 61442 62196 = 267133812604970 /\
  field (pack48 42 61442 62196) 3 = 16389 /\
  field (pack48 42 61442 62196) 18 = 15360 /\
  field (pack48 42 61442 62196) 33 = 31098 /\
  Z.land (pack48 42 61442 62196) 3 = 2 /\
  Z.land (pack48 42 61442 62196) 4 = 0.
Proof. repeat split. Qed.

Example known_vector_b64 :
  match unpack_b64 42 61442 62196 with
  | Ok l => map Prim2SF l
  | Raise _ => []
  end =
  [S754_finite false 6353579601563920 (-53);
   S754_finite false 4863686882463744 (-64);
   S754_finite true 7070999324150368 (-57);
   S754_finite false 6369171869617580 (-53)].
Proof. vm_compute. reflexivity. Qed.

(** All fields zero: each stored value is -pi/4, the squares sum to more
    than 1, and the binary64 magnitude is exactly 0. *)
Example clamp_b64 :
  exists s : locals (F := float),
    unpack_locals 0 0 0 = Ok s /\
    PrimFloat.ltb 1 (sum_of_squares (q1 s) (q2 s) (q3 s)) = true /\
    max_component s = 0%float /\
    unpack_b64 0 0 0 = Ok [q3 s; 0%float; q1 s; q2 s].
Proof. eexists. split; [vm_compute; reflexivity |]. repeat split. Qed.

Example toy_success :
  fst (Bnsh.main (os := toy_os)
         ["bnsh2glsl.py"; "good.bnsh"; "out"]%string toy_world)
  = Bnsh.Val 0.
Proof. reflexivity. Qed.

Example toy_failure :
  fst (Bnsh.main (os := toy_os)
         ["bnsh2glsl.py"; "bad.bnsh"; "out"]%string toy_world)
  = Bnsh.Val 1.
Proof. reflexivity. Qed.

Example toy_usage :
  fst (Bnsh.main (os := toy_os) ["bnsh2glsl.py"; "good.bnsh"]%string toy_world)
  = Bnsh.Val 1.
Proof. reflexivity. Qed.

Lemma unit_norm_exact_witness :
  uint16 42 /\ uint16 61442 /\ uint16 62196 /\
  exists w i j k : R,
    unpack_R 42 61442 62196 = Ok [w; i; j; k] /\
    (w * w + i * i + j * j + k * k = 1)%R.
Proof.
  assert (H42 : uint16 42) by (unfold uint16; lia).
  assert (Hy : uint16 61442) by (unfold uint16; lia).
  assert (Hz : uint16 62196) by (unfold uint16; lia).
  refine (conj H42 (conj Hy (conj Hz _))).
  destruct (unit_norm_exact 42 61442 62196 H42 Hy Hz known_vector_stored_sum)
    as (s & w & i & j & k & _ & _ & _ & _ & _ & Hout & Hnorm).
  exists w, i, j, k. split; assumption.
Defined.

Lemma magnitude_clamped_witness :
  uint16 42 /\ uint16 61442 /\ uint16 62196 /\
  (exists s : locals (F := R),
     unpack_locals 42 61442 62196 = Ok s /\ (0 <= max_component s)%R) /\
  (exists s : locals (F := float),
     unpack_locals 42 61442 62196 = Ok s /\
     math_sqrt
       (py_max (fsub (of_int 1) (sum_of_squares (q1 s) (q2 s) (q3 s)))
               (of_int 0))
     = Ok (max_component s) /\
     PrimFloat.is_nan (max_component s) = false /\
     PrimFloat.leb 0 (max_component s) = true).
Proof.
  assert (H42 : uint16 42) by (unfold uint16; lia).
  assert (Hy : uint16 61442) by (unfold uint16; lia).
  assert (Hz : uint16 62196) by (unfold uint16; lia).
  refine (conj H42 (conj Hy (conj Hz _))).
  destruct (magnitude_clamped 42 61442 62196 H42 Hy Hz) as [HR HB].
  split.
  - destruct HR as (s & Hs & _ & _ & _ & Hpos & _). exists s. now split.
  - destruct HB as (s & Hs & Hsqrt & _ & _ & _ & _ & _ & Hnan & Hle & _).
    exists s. repeat split; assumption.
Defined.

Lemma sign_bit_negates_witness :
  uint16 42 /\ uint16 61442 /\ uint16 62196 /\
  exists o : list float,
    unpack_b64 (Z.clearbit 42 2) 61442 62196 = Ok o /\
    unpack_b64 (Z.setbit 42 2) 61442 62196 = Ok (map PrimFloat.opp o).
Proof.
  assert (H42 : uint16 42) by (unfold uint16; lia).
  assert (Hy : uint16 61442) by (unfold uint16; lia).
  assert (Hz : uint16 62196) by (unfold uint16; lia).
  refine (conj H42 (conj Hy (conj Hz _))).
  destruct (sign_bit_negates (F := float) 42 61442 62196 H42 Hy Hz)
    as (o & H0 & H1 & _).
  exists o. split; assumption.
Defined.

Lemma magnitude_at_missing_index_witness :
  uint16 42 /\ uint16 61442 /\ uint16 62196 /\ 0 <= 1 <= 3 /\
  exists s sk : locals (F := float),
    unpack_locals 42 61442 62196 = Ok s /\
    unpack_locals (set_low2 42 1) 61442 62196 = Ok sk /\
    missing_component sk = 1 /\
    nth_error (values sk) 1 = Some (max_component s).
Proof.
  assert (H42 : uint16 42) by (unfold uint16; lia).
  assert (Hy : uint16 61442) by (unfold uint16; lia).
  assert (Hz : uint16 62196) by (unfold uint16; lia).
  assert (Hk : 0 <= 1 <= 3) by lia.
  refine (conj H42 (conj Hy (conj Hz (conj Hk _)))).
  destruct (magnitude_at_missing_index (F := float) 42 61442 62196 1
              H42 Hy Hz Hk)
    as (s & sk & Hs & _ & _ & _ & _ & Hsk & _ & _ & _ & _ & _ & Hm & Hn & _).
  exists s, sk. repeat split; assumption.
Defined.

Lemma output_is_rotation_witness :
  uint16 42 /\ uint16 61442 /\ uint16 62196 /\
  exists (s : locals (F := float)) (a b c d : float),
    unpack_locals 42 61442 62196 = Ok s /\
    values s = [a; b; c; d] /\
    unpack_b64 42 61442 62196 =
    Ok (if is_negative s then map fneg [d; a; b; c] else [d; a; b; c]).
Proof.
  assert (H42 : uint16 42) by (unfold uint16; lia).
  assert (Hy : uint16 61442) by (unfold uint16; lia).
  assert (Hz : uint16 62196) by (unfold uint16; lia).
  refine (conj H42 (conj Hy (conj Hz _))).
  destruct (output_is_rotation (F := float) 42 61442 62196 H42 Hy Hz)
    as (s & a & b & c & d & Hs & Hv & _ & _ & _ & _ & Hout).
  exists s, a, b, c, d. repeat split; assumption.
Defined.

Lemma expand_float_domain_witness :
  0 <= 100 <= 32767 /\
  (- PI / 4 <= expand_float (F := R) 100 <= PI / 4)%R /\
  expand_float (F := float) 32767 = PI_QUARTER.
Proof.
  assert (Hi : 0 <= 100 <= 32767) by lia.
  split; [exact Hi |].
  destruct (expand_float_domain 100 Hi)
    as (_ & _ & _ & _ & _ & Hrange & _ & _ & Htop & _).
  split; assumption.
Defined.

Lemma unpack_total_witness :
  uint16 65535 /\
  exists a b c d : float, unpack_b64 65535 65535 65535 = Ok [a; b; c; d].
Proof.
  assert (H : uint16 65535) by (unfold uint16; lia).
  split; [exact H |].
  exact (unpack_total (F := float) 65535 65535 65535 H H H).
Defined.

Lemma flag_bits_noninterference_witness :
  uint16 42 /\ uint16 45 /\ uint16 61442 /\ uint16 62196 /\
  Z.shiftr (pack48 42 61442 62196) 3 = Z.shiftr (pack48 45 61442 62196) 3 /\
  exists o o' : list float,
    unpack_b64 42 61442 62196 = Ok o /\
    unpack_b64 45 61442 62196 = Ok o' /\
    Permutation (map PrimFloat.abs o) (map PrimFloat.abs o').
Proof.
  assert (H42 : uint16 42) by (unfold uint16; lia).
  assert (H45 : uint16 45) by (unfold uint16; lia).
  assert (Hy : uint16 61442) by (unfold uint16; lia).
  assert (Hz : uint16 62196) by (unfold uint16; lia).
  assert (Hh : Z.shiftr (pack48 42 61442 62196) 3
               = Z.shiftr (pack48 45 61442 62196) 3) by reflexivity.
  refine (conj H42 (conj H45 (conj Hy (conj Hz (conj Hh _))))).
  destruct (flag_bits_noninterference (F := float)
              42 61442 62196 45 61442 62196 H42 Hy Hz H45 Hy Hz Hh)
    as (s & s' & o & o' & _ & _ & _ & _ & _ & _ & _ & _ & Ho & Ho' & _ & Hp).
  exists o, o'. repeat split; assumption.
Defined.

(** * Further properties of the decoder *)

(** ** How the three words fill the pack *)

Lemma uint16_testbit_high (a n : Z) : uint16 a -> 16 <= n -> Z.testbit a n = false.
Proof.
  intros Ha Hn. rewrite <- (Z.mod_small a (2 ^ 16)) by exact Ha.
  apply Z.mod_pow2_bits_high. lia.
Qed.

Lemma lor_disjoint_add (a b : Z) : Z.land a b = 0 -> Z.lor a b = a + b.
Proof. intros H. pose proof (Z.add_lor_land a b) as E. lia. Qed.

(** On 16-bit words no two of the three shifted words share a bit, so the
    pack is their sum. *)
Lemma pack48_sum (x y z : Z) :
  uint16 x -> uint16 y -> uint16 z ->
  pack48 x y z = x + 65536 * y + 4294967296 * z.
Proof.
  intros Hx Hy Hz. unfold pack48.
  rewrite (lor_disjoint_add (Z.lor _ _) x), (lor_disjoint_add (Z.shiftl z 32)).
  - rewrite !Z.shiftl_mul_pow2 by lia. lia.
  - apply Z.bits_inj'. intros n Hn.
    rewrite Z.land_spec, Z.bits_0, !Z.shiftl_spec by lia.
    destruct (Z.ltb_spec n 32).
    + rewrite (Z.testbit_neg_r z) by lia. reflexivity.
    + rewrite (uint16_testbit_high y) by (assumption || lia).
      apply andb_false_r.
  - apply Z.bits_inj'. intros n Hn.
    rewrite Z.land_spec, Z.lor_spec, Z.bits_0, !Z.shiftl_spec by lia.
    destruct (Z.ltb_spec n 16).
    + rewrite (Z.testbit_neg_r z), (Z.testbit_neg_r y) by lia. reflexivity.
    + rewrite (uint16_testbit_high x) by (assumption || lia).
      apply andb_false_r.
Qed.

Lemma field_div_mod (p shift : Z) :
  0 <= shift -> field p shift = (p / 2 ^ shift) mod 32768.
Proof.
  intros Hs. unfold field. change 0x7FFF with (Z.ones 15).
  rewrite Z.land_ones, Z.shiftr_div_pow2 by lia. reflexivity.
Qed.

Lemma land_4_testbit (x : Z) : negb (Z.land x 4 =? 0) = Z.testbit x 2.
Proof.
  destruct (Z.testbit x 2) eqn:Hb.
  - assert (H4 : Z.testbit (Z.land x 4) 2 = true)
      by (rewrite Z.land_spec, Hb; reflexivity).
    destruct (Z.eqb_spec (Z.land x 4) 0) as [E | E]; [| reflexivity].
    rewrite E, Z.bits_0 in H4. discriminate.
  - assert (E : Z.land x 4 = 0).
    { apply Z.bits_inj'. intros n Hn.
      rewrite Z.land_spec, testbit_4, Z.bits_0 by lia.
      destruct (Z.eqb_spec n 2) as [-> | _];
        [now rewrite Hb | apply andb_false_r]. }
    now rewrite E.
Qed.

Lemma land_3_mod (x : Z) : Z.land x 3 = x mod 4.
Proof. change 3 with (Z.ones 2). now rewrite Z.land_ones by lia. Qed.

Lemma words_layout (x y z : Z) :
  uint16 x -> uint16 y -> uint16 z ->
  field (pack48 x y z) 3 = x / 8 + 8192 * (y mod 4) /\
  field (pack48 x y z) 18 = y / 4 + 16384 * (z mod 2) /\
  field (pack48 x y z) 33 = z / 2.
Proof.
  intros Hx Hy Hz. rewrite !field_div_mod by lia.
  rewrite (pack48_sum x y z Hx Hy Hz).
  change (2 ^ 3) with 8. change (2 ^ 18) with 262144.
  change (2 ^ 33) with 8589934592.
  unfold uint16 in Hx, Hy, Hz.
  repeat split; Z.div_mod_to_equations; lia.
Qed.

Section Layout.

Context {F : Type} {num : PyFloat F} {laws : PyFloatLaws F}.

(** X1. On 16-bit words the pack is [x + 2^16 y + 2^32 z], a 48-bit
    number from which each word can be read back. *)
Theorem pack_of_words (x y z : Z) :
  uint16 x -> uint16 y -> uint16 z ->
  exists s : locals (F := F),
    unpack_locals x y z = Ok s /\
    pack s = x + 65536 * y + 4294967296 * z /\
    0 <= pack s < 2 ^ 48 /\
    Z.land (pack s) 0xFFFF = x /\
    Z.land (Z.shiftr (pack s) 16) 0xFFFF = y /\
    Z.shiftr (pack s) 32 = z.
Proof.
  intros Hx Hy Hz. eexists. split; [apply unpack_locals_ok |].
  cbn [pack]. rewrite (pack48_sum x y z Hx Hy Hz).
  change 0xFFFF with (Z.ones 16).
  rewrite !Z.land_ones, !Z.shiftr_div_pow2 by lia.
  change (2 ^ 48) with 281474976710656. change (2 ^ 16) with 65536.
  change (2 ^ 32) with 4294967296.
  unfold uint16 in Hx, Hy, Hz.
  repeat split; try lia; Z.div_mod_to_equations; lia.
Qed.

(** X2. Where the fields sit in the words: the first stored value is read
    from bits 3..15 of [x] with the two low bits of [y] on top, the second
    from bits 2..15 of [y] with the low bit of [z] on top, the third from
    bits 1..15 of [z]; the missing index is [x mod 4] and the sign flag is
    bit 2 of [x]. *)
Theorem fields_of_words (x y z : Z) :
  uint16 x -> uint16 y -> uint16 z ->
  exists s : locals (F := F),
    unpack_locals x y z = Ok s /\
    q1 s = expand_float (x / 8 + 8192 * (y mod 4)) /\
    q2 s = expand_float (y / 4 + 16384 * (z mod 2)) /\
    q3 s = expand_float (z / 2) /\
    missing_component s = x mod 4 /\
    is_negative s = Z.testbit x 2.
Proof.
  intros Hx Hy Hz. eexists. split; [apply unpack_locals_ok |].
  cbn [q1 q2 q3 missing_component is_negative].
  destruct (words_layout x y z Hx Hy Hz) as (-> & -> & ->).
  rewrite !pack48_land_low by lia.
  rewrite land_4_testbit, land_3_mod.
  repeat split; reflexivity.
Qed.

End Layout.

(** ** Words outside the 16-bit range *)

Lemma pack48_spill (x y z : Z) :
  pack48 x y z = pack48 (Z.land x 0xFFFF) (Z.lor y (Z.shiftr x 16)) z.
Proof.
  unfold pack48. apply Z.bits_inj'. intros n Hn.
  rewrite !Z.lor_spec, !Z.shiftl_spec, Z.lor_spec, Z.land_spec by lia.
  change 0xFFFF with (Z.ones 16).
  destruct (Z.ltb_spec n 16).
  - rewrite Z.ones_spec_low, andb_true_r by lia.
    rewrite (Z.testbit_neg_r _ (n - 16)), (Z.testbit_neg_r (Z.shiftr x 16))
      by lia.
    reflexivity.
  - rewrite Z.ones_spec_high, andb_false_r, orb_false_r by lia.
    rewrite Z.shiftr_spec by lia. replace (n - 16 + 16) with n by lia.
    now rewrite orb_assoc.
Qed.

(** X3. Nothing checks that a word fits in 16 bits: the bits of [x] from
    bit 16 up are or-ed into [y], and the decoder returns what it returns
    for the words so merged. *)
Theorem oversized_word_spills {F : Type} {num : PyFloat F} (x y z : Z) :
  unpack_48bit_quaternion (F := F) x y z =
  unpack_48bit_quaternion (Z.land x 0xFFFF) (Z.lor y (Z.shiftr x 16)) z.
Proof.
  unfold unpack_48bit_quaternion, unpack_locals.
  change (Z.lor (Z.lor (Z.shiftl z 32) (Z.shiftl y 16)) x)
    with (pack48 x y z).
  change (Z.lor (Z.lor (Z.shiftl z 32)
                   (Z.shiftl (Z.lor y (Z.shiftr x 16)) 16))
            (Z.land x 0xFFFF))
    with (pack48 (Z.land x 0xFFFF) (Z.lor y (Z.shiftr x 16)) z).
  now rewrite <- pack48_spill.
Qed.

(** ** The expansion map *)

(** X4. Whatever integers are passed, each field is masked to 15 bits, so
    the three stored values lie within [-pi/4, pi/4]; the binary64 values
    lie between the doubles [-PI_QUARTER] and [PI_QUARTER]. *)
Theorem stored_values_in_range (x y z : Z) :
  (exists s : locals (F := R),
     unpack_locals x y z = Ok s /\
     (- PI / 4 <= q1 s <= PI / 4)%R /\
     (- PI / 4 <= q2 s <= PI / 4)%R /\
     (- PI / 4 <= q3 s <= PI / 4)%R) /\
  (exists s : locals (F := float),
     unpack_locals x y z = Ok s /\
     Forall (fun v => PrimFloat.leb (fneg PI_QUARTER) v = true /\
                      PrimFloat.leb v PI_QUARTER = true)
            [q1 s; q2 s; q3 s]).
Proof.
  split.
  - eexists. split; [apply unpack_locals_ok |]. cbn [q1 q2 q3].
    repeat split; apply expand_float_R_range, field_range.
  - eexists. split; [apply unpack_locals_ok |]. cbn [q1 q2 q3].
    repeat (apply Forall_cons;
            [apply andb_prop, expand_float_b64_range, field_range |]).
    apply Forall_nil.
Qed.

(** X5. Over the reals the expansion is strictly increasing, so distinct
    fields are expanded to distinct values. *)
Theorem expand_float_increasing (i j : Z) :
  i < j ->
  (expand_float (F := R) i < expand_float (F := R) j)%R /\
  expand_float (F := R) i <> expand_float (F := R) j.
Proof.
  intros Hij. rewrite !expand_float_R.
  apply IZR_lt in Hij. pose proof PI_RGT_0 as Hpi.
  assert (Hc : (0 < PI / 2 / 32767)%R) by (apply Rdiv_lt_0_compat; lra).
  pose proof (Rmult_lt_compat_r _ _ _ Hc Hij) as H.
  split; lra.
Qed.

(** X6. Over the reals the expansion is odd about the middle of the
    range: fields [i] and [32767 - i] are expanded to opposite values.  In
    binary64 this holds only up to rounding: it fails for [i = 1]. *)
Theorem expand_float_mirror (i : Z) :
  (expand_float (F := R) (32767 - i) = - expand_float (F := R) i)%R /\
  expand_float (F := float) (32767 - 1) <> fneg (expand_float (F := float) 1).
Proof.
  split.
  - rewrite !expand_float_R, minus_IZR. pose proof PI_RGT_0. field.
  - intros E. apply (f_equal Prim2SF) in E. vm_compute in E. discriminate.
Qed.

(** X7. No field is expanded to zero: over the reals for every integer
    (32767 is odd, so the middle of the range falls between two fields),
    and in binary64 for every 15-bit field.  A quaternion with a stored
    component equal to zero has no exact encoding. *)
Theorem expand_float_never_zero (i : Z) :
  expand_float (F := R) i <> 0%R /\
  (0 <= i <= 32767 -> PrimFloat.eqb (expand_float (F := float) i) 0 = false).
Proof.
  split.
  - rewrite expand_float_R. intros E. pose proof PI_RGT_0 as Hpi.
    assert (H2 : (IZR (2 * i) = IZR 32767)%R).
    { rewrite mult_IZR.
      assert (Hq : (IZR i * (PI / 2 / 32767) = PI / 4)%R) by lra.
      assert (Hm : (IZR i * PI * 2 = 32767 * PI)%R).
      { apply (f_equal (fun t => (t * 4 * 32767)%R)) in Hq.
        field_simplify in Hq. lra. }
      nra. }
    apply eq_IZR in H2. lia.
  - intros Hi. apply negb_true_iff.
    apply (all_from_spec (Z.to_nat 32768) nonzero_b64 0);
      [vm_compute; reflexivity | lia].
Qed.

Lemma b64_lt_exact_sound (a b : float) : b64_lt_exact a b = true -> exact_lt a b.
Proof.
  unfold b64_lt_exact, exact_lt.
  destruct (b64_to_Q a) as [p |], (b64_to_Q b) as [q |]; try discriminate.
  intros H. exists p, q. repeat split. apply Qnot_le_lt. intros Hle.
  apply Qle_bool_iff in Hle. rewrite Hle in H. discriminate.
Qed.

Lemma exact_lt_trans (a b c : float) : exact_lt a b -> exact_lt b c -> exact_lt a c.
Proof.
  intros (p & q & Hp & Hq & Hpq) (q' & r & Hq' & Hr & Hqr).
  rewrite Hq in Hq'. injection Hq' as <-.
  exists p, r. repeat split; try assumption. now apply Qlt_trans with q.
Qed.

Lemma exact_lt_irrefl (a : float) : ~ exact_lt a a.
Proof.
  intros (p & q & Hp & Hq & Hpq). rewrite Hp in Hq. injection Hq as <-.
  exact (Qlt_irrefl p Hpq).
Qed.

Lemma expand_float_b64_step (i : Z) :
  0 <= i <= 32766 ->
  exact_lt (expand_float (F := float) i) (expand_float (F := float) (i + 1)).
Proof.
  intros Hi. apply b64_lt_exact_sound.
  apply (all_from_spec (Z.to_nat 32767) step_increasing_b64 0);
    [vm_compute; reflexivity | lia].
Qed.

(** X8. In binary64 too the expansion is strictly increasing on the 15-bit
    fields (the exact values of the doubles are compared), so no two fields
    are expanded to the same double. *)
Theorem expand_float_b64_increasing (i j : Z) :
  0 <= i -> i < j -> j <= 32767 ->
  exact_lt (expand_float (F := float) i) (expand_float (F := float) j) /\
  expand_float (F := float) i <> expand_float (F := float) j.
Proof.
  intros Hi Hij Hj.
  assert (Hlt : forall (n : nat) (k : Z),
             0 <= k -> k + 1 + Z.of_nat n <= 32767 ->
             exact_lt (expand_float (F := float) k)
                      (expand_float (F := float) (k + 1 + Z.of_nat n))).
  { induction n as [| n IH]; intros k Hk Hn.
    - replace (k + 1 + Z.of_nat 0) with (k + 1) by lia.
      apply expand_float_b64_step. lia.
    - replace (k + 1 + Z.of_nat (S n)) with (k + 1 + Z.of_nat n + 1) by lia.
      apply exact_lt_trans with (expand_float (k + 1 + Z.of_nat n)).
      + apply IH; lia.
      + apply expand_float_b64_step. lia. }
  assert (H : exact_lt (expand_float (F := float) i)
                       (expand_float (F := float) j)).
  { replace j with (i + 1 + Z.of_nat (Z.to_nat (j - i - 1))) by lia.
    apply Hlt; lia. }
  split; [exact H |].
  intros E. rewrite E in H. exact (exact_lt_irrefl _ H).
Qed.

(** ** The length and the size of what is returned *)

Lemma magnitude_R_zero (a b c : R) :
  (1 < a * a + b * b + c * c)%R -> magnitude a b c = 0%R.
Proof.
  intros Hs. unfold magnitude, sqrt_argument, sum_of_squares. simpl.
  rewrite py_max_R_below by lra. apply sqrt_0.
Qed.

Lemma magnitude_R_range (a b c : R) : (0 <= magnitude a b c <= 1)%R.
Proof.
  change (magnitude a b c) with (sqrt (sqrt_argument a b c)).
  split; [apply sqrt_pos |].
  rewrite <- sqrt_1. apply sqrt_le_1_alt.
  unfold sqrt_argument, sum_of_squares. simpl.
  destruct (Rlt_dec (1 - (a * a + b * b + c * c)) 0) as [Hn | Hn].
  - rewrite py_max_R_below by assumption. lra.
  - rewrite py_max_R_above by lra. nra.
Qed.

(** X9. Over the reals the squares of the four numbers returned sum to
    [max 1 sum], where [sum] is the sum of the squares of the three stored
    values: the result has unit length exactly when [sum <= 1], is longer
    than that otherwise, and its squared length never exceeds 3. *)
Theorem output_norm_is_max (x y z : Z) :
  exists (s : locals) (w i j k : R),
    unpack_locals x y z = Ok s /\
    unpack_R x y z = Ok [w; i; j; k] /\
    let sum := (q1 s * q1 s + q2 s * q2 s + q3 s * q3 s)%R in
    let norm2 := (w * w + i * i + j * j + k * k)%R in
    norm2 = Rmax 1 sum /\
    (norm2 = 1%R <-> (sum <= 1)%R) /\
    (1 <= norm2 <= 3)%R.
Proof.
  destruct (output_sum_squares x y z)
    as (s & w & i & j & k & Hs & Ha & Hb & Hc & _ & Hout & Hsq).
  cbv zeta in Ha, Hb, Hc, Hsq. rewrite <- Ha, <- Hb, <- Hc in Hsq.
  exists s, w, i, j, k. split; [exact Hs |]. split; [exact Hout |].
  cbv zeta. rewrite Hsq.
  assert (Hq : forall t : R, (- PI / 4 <= t <= PI / 4)%R -> (t * t <= 1)%R).
  { intros t Ht. pose proof PI_4. pose proof PI_RGT_0. nra. }
  assert (H1 : (q1 s * q1 s <= 1)%R)
    by (apply Hq; rewrite Ha; apply expand_float_R_range, field_range).
  assert (H2 : (q2 s * q2 s <= 1)%R)
    by (apply Hq; rewrite Hb; apply expand_float_R_range, field_range).
  assert (H3 : (q3 s * q3 s <= 1)%R)
    by (apply Hq; rewrite Hc; apply expand_float_R_range, field_range).
  destruct (Rle_dec (q1 s * q1 s + q2 s * q2 s + q3 s * q3 s) 1)
    as [Hle | Hgt].
  - rewrite (magnitude_R_square _ _ _ Hle), Rmax_left by assumption.
    repeat split; intros; lra.
  - apply Rnot_le_lt in Hgt.
    rewrite (magnitude_R_zero _ _ _ Hgt), Rmax_right by lra.
    repeat split; intros; lra.
Qed.

(** X10. Over the reals every number returned lies in [-1, 1], for every
    input. *)
Theorem output_components_bounded (x y z : Z) :
  exists o : list R,
    unpack_R x y z = Ok o /\
    Forall (fun v => (-1 <= v <= 1)%R) o.
Proof.
  pose proof (unpack_locals_ok (F := R) x y z) as Hs. cbv zeta in Hs.
  destruct (output_abs_permutation x y z _ Hs) as (o & Ho & Hp).
  cbn [q1 q2 q3 max_component] in Hp.
  exists o. split; [exact Ho |].
  assert (Hq : forall t : R, (- PI / 4 <= t <= PI / 4)%R -> (Rabs t <= 1)%R).
  { intros t Ht. pose proof PI_4. apply Rabs_le. lra. }
  assert (Habs : Forall (fun v => (v <= 1)%R) (map fabs o)).
  { apply (Permutation_Forall (Permutation_sym Hp)).
    repeat apply Forall_cons; try apply Forall_nil;
      try (apply Hq, expand_float_R_range, field_range).
    apply Rabs_le. pose proof (magnitude_R_range
      (expand_float (field (pack48 x y z) 3))
      (expand_float (field (pack48 x y z) 18))
      (expand_float (field (pack48 x y z) 33))). lra. }
  rewrite Forall_map in Habs.
  apply (Forall_impl _ (P := fun v => (fabs v <= 1)%R)); [| exact Habs].
  intros v Hv. simpl in Hv. unfold Rabs in Hv.
  destruct (Rcase_abs v); lra.
Qed.

(** ** From flags and fields to the returned list, and back to words *)

Section Table.

Context {F : Type} {num : PyFloat F} {laws : PyFloatLaws F}.

(** X11. The whole decoding as a table: with [m] the magnitude, missing
    index 0, 1, 2, 3 returns [q3, m, q1, q2], [q3, q1, m, q2],
    [q3, q1, q2, m], [m, q1, q2, q3], negated when the sign flag is set.
    So the reconstructed number comes first only for index 3, and [q3]
    comes first otherwise. *)
Theorem decode_table (x y z : Z) :
  exists s : locals (F := F),
    unpack_locals x y z = Ok s /\
    unpack_48bit_quaternion x y z =
    Ok (let m := max_component s in
        let l := match missing_component s with
                 | 0 => [q3 s; m; q1 s; q2 s]
                 | 1 => [q3 s; q1 s; m; q2 s]
                 | 2 => [q3 s; q1 s; q2 s; m]
                 | _ => [m; q1 s; q2 s; q3 s]
                 end in
        if is_negative s then map fneg l else l).
Proof.
  pose proof (unpack_locals_ok (F := F) x y z) as Hs. cbv zeta in Hs.
  set (p := pack48 x y z) in *.
  set (a := expand_float (field p 3)) in *.
  set (b := expand_float (field p 18)) in *.
  set (c := expand_float (field p 33)) in *.
  set (m := magnitude a b c) in *.
  destruct (insert_3_cases a b c m (Z.land p 3) (land_3_range p))
    as [[Ek E] | [[Ek E] | [[Ek E] | [Ek E]]]];
    rewrite E, Ek in Hs;
    (eexists; split; [exact Hs |]);
    unfold unpack_48bit_quaternion; rewrite Hs; simpl bind;
    apply return_value_4; reflexivity.
Qed.

(** X12. The layout wastes nothing and hides nothing: any three 15-bit
    fields, any missing index and any sign are decoded from exactly one
    triple of 16-bit words. *)
Theorem every_code_has_words (f1 f2 f3 k : Z) (neg : bool) :
  0 <= f1 <= 32767 -> 0 <= f2 <= 32767 -> 0 <= f3 <= 32767 ->
  0 <= k <= 3 ->
  exists x y z : Z,
    uint16 x /\ uint16 y /\ uint16 z /\
    (exists s : locals (F := F),
       unpack_locals x y z = Ok s /\
       q1 s = expand_float f1 /\ q2 s = expand_float f2 /\
       q3 s = expand_float f3 /\
       missing_component s = k /\ is_negative s = neg) /\
    (forall x' y' z' : Z,
       uint16 x' -> uint16 y' -> uint16 z' ->
       field (pack48 x' y' z') 3 = f1 ->
       field (pack48 x' y' z') 18 = f2 ->
       field (pack48 x' y' z') 33 = f3 ->
       Z.land (pack48 x' y' z') 3 = k ->
       negb (Z.land (pack48 x' y' z') 4 =? 0) = neg ->
       x' = x /\ y' = y /\ z' = z).
Proof.
  intros H1 H2 H3 Hk.
  set (x := k + 4 * Z.b2z neg + 8 * (f1 mod 8192)).
  set (y := f1 / 8192 + 4 * (f2 mod 16384)).
  set (z := f2 / 16384 + 2 * f3).
  assert (Hb : 0 <= Z.b2z neg <= 1) by (destruct neg; simpl; lia).
  assert (Hx : uint16 x)
    by (unfold uint16, x; Z.div_mod_to_equations; lia).
  assert (Hy : uint16 y)
    by (unfold uint16, y; Z.div_mod_to_equations; lia).
  assert (Hz : uint16 z)
    by (unfold uint16, z; Z.div_mod_to_equations; lia).
  assert (Hbit : forall a : Z, Z.b2z (Z.testbit a 2) = (a / 4) mod 2)
    by (intros a; apply (Z.testbit_spec' a 2); lia).
  exists x, y, z. repeat (split; [assumption |]). split.
  - eexists. split; [apply unpack_locals_ok |].
    cbn [q1 q2 q3 missing_component is_negative].
    destruct (words_layout x y z Hx Hy Hz) as (-> & -> & ->).
    rewrite !pack48_land_low by lia. rewrite land_4_testbit, land_3_mod.
    repeat split.
    + f_equal. unfold x, y. Z.div_mod_to_equations. lia.
    + f_equal. unfold y, z. Z.div_mod_to_equations. lia.
    + f_equal. unfold z. Z.div_mod_to_equations. lia.
    + unfold x. Z.div_mod_to_equations. lia.
    + apply Z.b2z_inj. rewrite Hbit. unfold x.
      Z.div_mod_to_equations. lia.
  - intros x' y' z' Hx' Hy' Hz' E1 E2 E3 Ek En.
    destruct (words_layout x' y' z' Hx' Hy' Hz') as (L1 & L2 & L3).
    rewrite L1 in E1. rewrite L2 in E2. rewrite L3 in E3.
    rewrite pack48_land_low, land_3_mod in Ek by lia.
    rewrite pack48_land_low, land_4_testbit in En by lia.
    apply (f_equal Z.b2z) in En. rewrite Hbit in En.
    unfold uint16 in Hx', Hy', Hz'. unfold x, y, z.
    repeat split; Z.div_mod_to_equations; lia.
Qed.

End Table.

(** X13. Over the reals the sign flag is the sign of the reconstructed
    number: it is returned at index [(missing index + 1) mod 4], as the
    magnitude (between 0 and 1) when the flag is clear and as its opposite
    (between -1 and 0) when the flag is set. *)
Theorem sign_flag_signs_reconstructed (x y z : Z) :
  exists (s : locals) (o : list R) (v : R),
    unpack_locals x y z = Ok s /\
    unpack_R x y z = Ok o /\
    nth_error o (Z.to_nat ((missing_component s + 1) mod 4)) = Some v /\
    v = (if is_negative s then - max_component s else max_component s)%R /\
    (is_negative s = false -> (0 <= v <= 1)%R) /\
    (is_negative s = true -> (-1 <= v <= 0)%R).
Proof.
  pose proof (unpack_locals_ok (F := R) x y z) as Hs. cbv zeta in Hs.
  set (p := pack48 x y z) in *.
  set (a := expand_float (field p 3)) in *.
  set (b := expand_float (field p 18)) in *.
  set (c := expand_float (field p 33)) in *.
  pose proof (magnitude_R_range a b c) as Hm.
  set (m := magnitude a b c) in *.
  set (neg := negb (Z.land p 4 =? 0)) in *.
  destruct (insert_3_cases a b c m (Z.land p 3) (land_3_range p))
    as [[Ek E] | [[Ek E] | [[Ek E] | [Ek E]]]];
    rewrite E, Ek in Hs;
    (eexists; eexists; exists (if neg then - m else m)%R;
     split; [exact Hs |];
     split; [unfold unpack_R, unpack_48bit_quaternion; rewrite Hs;
             simpl bind; apply return_value_4; reflexivity |]);
    cbn [missing_component max_component is_negative];
    destruct neg; (split; [reflexivity |]); (split; [reflexivity |]);
    split; intros Hn; try discriminate; lra.
Qed.

(** * Further properties of the wrapper *)


Section BnshMore.

Context {os : Bnsh.OS}.

Local Open Scope string_scope.


(** X15. With the input in place but [BnshToGlsl.exe] missing, the
    result is [False] and the exit code 1: the build instructions are
    printed (after the suffix warning, if there is one), no process is
    started and the file system is left alone. *)
Theorem missing_executable (script input_file output_dir : string)
  (w : Bnsh.world) :
  Bnsh.path_exists (Bnsh.files w) (Bnsh.absolute input_file)
    = Bnsh.Val true ->
  Bnsh.path_exists (Bnsh.files w) Bnsh.BNSH_TO_GLSL_EXE = Bnsh.Val false ->
  let ip := Bnsh.absolute input_file in
  let warning :=
    if negb (Bnsh.suffix_lower ip =? ".bnsh")
    then [Bnsh.SuffixWarning ip] else [] in
  let w' :=
    {| Bnsh.files := Bnsh.files w;
       Bnsh.console :=
         (Bnsh.console w ++ warning ++
          [Bnsh.ExeMissing; Bnsh.ExePath Bnsh.BNSH_TO_GLSL_EXE; Bnsh.Blank;
           Bnsh.BuildHint 1; Bnsh.BuildHint 2; Bnsh.BuildHint 3])%list;
       Bnsh.invocations := Bnsh.invocations w |} in
  Bnsh.convert_bnsh input_file output_dir w = (Bnsh.Val false, w') /\
  Bnsh.main [script; input_file; output_dir] w = (Bnsh.Val 1, w').
Proof.
  intros Hin Hexe. cbv zeta. run_script. cbn [List.length Nat.eqb negb nth].
  rewrite Hin. cbn.
  destruct (negb (Bnsh.suffix_lower (Bnsh.absolute input_file) =? ".bnsh"));
    cbn; rewrite Hexe; cbn; rewrite <- ?app_assoc; cbn [app];
    split; reflexivity.
Qed.

(** X16. [convert_bnsh] returns [True] exactly when [Path.exists] finds
    the input and the executable, the process exits with 0, and then
    either [Path.exists] reports that there is no output directory, or it
    reports one and listing its [.glsl] files raises nothing.  A check of
    the output directory that raises is not among these: it gives
    [False]. *)
Theorem convert_bnsh_true_iff (input_file output_dir : string)
  (w : Bnsh.world) :
  (exists w' : Bnsh.world,
     Bnsh.convert_bnsh input_file output_dir w = (Bnsh.Val true, w')) <->
  (Bnsh.path_exists (Bnsh.files w) (Bnsh.absolute input_file)
     = Bnsh.Val true /\
   Bnsh.path_exists (Bnsh.files w) Bnsh.BNSH_TO_GLSL_EXE = Bnsh.Val true /\
   exists f : Bnsh.fs,
     Bnsh.launch (command input_file output_dir) (Bnsh.files w)
       = (Bnsh.Exited 0, f) /\
     (Bnsh.path_exists f (Bnsh.absolute output_dir) = Bnsh.Val false \/
      (Bnsh.path_exists f (Bnsh.absolute output_dir) = Bnsh.Val true /\
       exists l : list string,
         Bnsh.path_glob f (Bnsh.absolute output_dir) "*.glsl"
           = Bnsh.Val l))).
Proof.
  unfold command. run_script.
  destruct (Bnsh.path_exists (Bnsh.files w) (Bnsh.absolute input_file))
    as [[|] | e0]; cbn.
  2,3: split; [intros (w' & H); discriminate | intros (H & _); discriminate].
  destruct (negb (Bnsh.suffix_lower (Bnsh.absolute input_file) =? ".bnsh"));
    cbn;
    (destruct (Bnsh.path_exists (Bnsh.files w) Bnsh.BNSH_TO_GLSL_EXE)
       as [[|] | e1]; cbn;
     [| split; [intros (w' & H); discriminate
               | intros (_ & H & _); discriminate]
      | split; [intros (w' & H); discriminate
               | intros (_ & H & _); discriminate]]).
  all: destruct (Bnsh.launch _ (Bnsh.files w)) as [[c | t] f]; cbn.
  all: try (destruct (Z.eqb_spec c 0) as [-> | Hc]; cbn).
  all: try (destruct (Bnsh.path_exists f (Bnsh.absolute output_dir))
              as [[|] | [rc0 | t0]] eqn:Hout; cbn).
  all: try (destruct (Bnsh.path_glob f _ _) as [l | [rc | t']] eqn:Hg; cbn).
  all: split.
  all: try (intros (w' & H); discriminate H).
  all: try (intros (w' & H);
            split; [reflexivity |]; split; [reflexivity |];
            exists f; split; [reflexivity |];
            first [left; assumption
                  | right; split; [assumption | eexists; eassumption]]).
  all: try (intros (_ & _ & f0 & Hl & Hor); eexists; reflexivity).
  all: try (intros (_ & _ & f0 & Hl & Hor); exfalso;
            inversion Hl; subst; congruence).
  all: intros (_ & _ & f0 & Hl & Hor); exfalso; inversion Hl; subst;
    destruct Hor as [Hor | (Hor' & l' & Hor)]; congruence.
Qed.

(** X17. When the process exited with 0 and left the output directory but
    listing its [.glsl] files raises, the conversion counts as failed
    although the tool ran: [False], exit code 1. *)
Theorem glob_failure_fails (script input_file output_dir : string)
  (w : Bnsh.world) (f : Bnsh.fs) (e : Bnsh.py_exception) :
  Bnsh.path_exists (Bnsh.files w) (Bnsh.absolute input_file)
    = Bnsh.Val true ->
  Bnsh.path_exists (Bnsh.files w) Bnsh.BNSH_TO_GLSL_EXE = Bnsh.Val true ->
  Bnsh.launch (command input_file output_dir) (Bnsh.files w)
    = (Bnsh.Exited 0, f) ->
  Bnsh.path_exists f (Bnsh.absolute output_dir) = Bnsh.Val true ->
  Bnsh.path_glob f (Bnsh.absolute output_dir) "*.glsl" = Bnsh.Exc e ->
  exists w' : Bnsh.world,
    Bnsh.convert_bnsh input_file output_dir w = (Bnsh.Val false, w') /\
    Bnsh.main [script; input_file; output_dir] w = (Bnsh.Val 1, w') /\
    Bnsh.files w' = f /\
    Bnsh.invocations w' =
      (Bnsh.invocations w ++ [command input_file output_dir])%list.
Proof.
  unfold command. intros Hin Hexe Hl Hout Hg.
  run_script. cbn [List.length Nat.eqb negb nth].
  rewrite Hin. cbn.
  destruct (negb (Bnsh.suffix_lower (Bnsh.absolute input_file) =? ".bnsh"));
    cbn; rewrite Hexe; cbn; rewrite Hl; cbn; rewrite Hout; cbn;
    rewrite Hg; destruct e as [rc | t]; cbn;
    eexists; repeat split; reflexivity.
Qed.

(** X18. After a run that exited with 0, what is reported depends on the
    check of the output directory.  If [Path.exists] reports none, nothing
    follows the banner and the result is [True], exit code 0.  If it
    reports one and its [.glsl] files can be listed, their number is
    reported last and the result is [True], exit code 0.  If the check
    itself raises, the error block is printed and the result is [False],
    exit code 1, although the tool ran and exited with 0. *)
Theorem success_report (script input_file output_dir : string)
  (w : Bnsh.world) (f : Bnsh.fs) :
  Bnsh.path_exists (Bnsh.files w) (Bnsh.absolute input_file)
    = Bnsh.Val true ->
  Bnsh.path_exists (Bnsh.files w) Bnsh.BNSH_TO_GLSL_EXE = Bnsh.Val true ->
  Bnsh.launch (command input_file output_dir) (Bnsh.files w)
    = (Bnsh.Exited 0, f) ->
  let ip := Bnsh.absolute input_file in
  let op := Bnsh.absolute output_dir in
  let warning :=
    if negb (Bnsh.suffix_lower ip =? ".bnsh")
    then [Bnsh.SuffixWarning ip] else [] in
  let banner :=
    [Bnsh.Rule; Bnsh.Title; Bnsh.Rule; Bnsh.Blank; Bnsh.InputLine ip;
     Bnsh.OutputLine op; Bnsh.Blank] in
  let final (report : list Bnsh.message) :=
    {| Bnsh.files := f;
       Bnsh.console := (Bnsh.console w ++ warning ++ banner ++ report)%list;
       Bnsh.invocations :=
         (Bnsh.invocations w ++ [command input_file output_dir])%list |} in
  (Bnsh.path_exists f op = Bnsh.Val false ->
   Bnsh.convert_bnsh input_file output_dir w = (Bnsh.Val true, final []) /\
   Bnsh.main [script; input_file; output_dir] w = (Bnsh.Val 0, final [])) /\
  (forall l : list string,
     Bnsh.path_exists f op = Bnsh.Val true ->
     Bnsh.path_glob f op "*.glsl" = Bnsh.Val l ->
     let report :=
       [Bnsh.Blank; Bnsh.Rule; Bnsh.Converted (List.length l); Bnsh.Rule] in
     Bnsh.convert_bnsh input_file output_dir w
       = (Bnsh.Val true, final report) /\
     Bnsh.main [script; input_file; output_dir] w
       = (Bnsh.Val 0, final report)) /\
  (forall e : Bnsh.py_exception,
     Bnsh.path_exists f op = Bnsh.Exc e ->
     let report :=
       [Bnsh.Blank; Bnsh.Rule;
        match e with
        | Bnsh.CalledProcessError _ => Bnsh.Failed
        | Bnsh.OtherException _ => Bnsh.ErrorText e
        end;
        Bnsh.Rule] in
     Bnsh.convert_bnsh input_file output_dir w
       = (Bnsh.Val false, final report) /\
     Bnsh.main [script; input_file; output_dir] w
       = (Bnsh.Val 1, final report)).
Proof.
  unfold command. intros Hin Hexe Hl. cbv zeta.
  run_script. cbn [List.length Nat.eqb negb nth].
  rewrite Hin. cbn.
  destruct (negb (Bnsh.suffix_lower (Bnsh.absolute input_file) =? ".bnsh"));
    cbn; rewrite Hexe; cbn; rewrite Hl; cbn;
    (split; [intros Hout | split; [intros l Hout Hg | intros e Hout]]);
    rewrite Hout; cbn; rewrite ?Hg; try destruct e as [rc | t]; cbn;
    rewrite <- ?app_assoc; cbn [app]; split; reflexivity.
Qed.

(** X19. The exit status of the script, whatever happens: it is 0 or 1.
    With a number of arguments other than two the usage text is printed,
    the status is 1 and nothing is started.  With two arguments the status
    is 0 exactly when [convert_bnsh] returned [True]; [False] gives 1, and
    an exception that leaves [convert_bnsh] leaves [main] too and ends the
    process with 1.  When [Path.exists] reports that the input is missing,
    [convert_bnsh] returns [False] and nothing is started; [True] means
    the executable ran once and exited with 0; a run that ends otherwise,
    or cannot start, never gives status 0. *)
Theorem exit_status_of_main (argv : list string) (w : Bnsh.world) :
  exists (r : Bnsh.outcome Z) (w' : Bnsh.world),
    Bnsh.main argv w = (r, w') /\
    (Bnsh.exit_status r = 0 \/ Bnsh.exit_status r = 1) /\
    (List.length argv <> 3%nat ->
     r = Bnsh.Val 1 /\
     Bnsh.console w' = (Bnsh.console w ++ [Bnsh.Usage])%list /\
     Bnsh.invocations w' = Bnsh.invocations w /\
     Bnsh.files w' = Bnsh.files w) /\
    (List.length argv = 3%nat ->
     let input_file := nth 1 argv "" in
     let output_dir := nth 2 argv "" in
     exists r0 : Bnsh.outcome bool,
       Bnsh.convert_bnsh input_file output_dir w = (r0, w') /\
       r = match r0 with
           | Bnsh.Val ok => Bnsh.Val (if ok then 0 else 1)
           | Bnsh.Exc e => Bnsh.Exc e
           end /\
       (Bnsh.exit_status r = 0 <-> r0 = Bnsh.Val true) /\
       (Bnsh.path_exists (Bnsh.files w) (Bnsh.absolute input_file)
          = Bnsh.Val false ->
        r0 = Bnsh.Val false /\
        Bnsh.invocations w' = Bnsh.invocations w /\
        Bnsh.files w' = Bnsh.files w) /\
       (r0 = Bnsh.Val true ->
        exists f : Bnsh.fs,
          Bnsh.launch (command input_file output_dir) (Bnsh.files w)
            = (Bnsh.Exited 0, f) /\
          Bnsh.invocations w' =
            (Bnsh.invocations w ++ [command input_file output_dir])%list) /\
       (forall (lr : Bnsh.launch_result) (f : Bnsh.fs),
          Bnsh.launch (command input_file output_dir) (Bnsh.files w)
            = (lr, f) ->
          lr <> Bnsh.Exited 0 -> Bnsh.exit_status r = 1)).
Proof.
  destruct (Nat.eqb_spec (List.length argv) 3) as [Hlen | Hlen].
  - destruct (Bnsh.convert_bnsh (nth 1 argv "") (nth 2 argv "") w)
      as [r0 w'] eqn:Hrun.
    exists (match r0 with
            | Bnsh.Val ok => Bnsh.Val (if ok then 0 else 1)
            | Bnsh.Exc e => Bnsh.Exc e
            end), w'.
    split; [| split; [| split]].
    + unfold Bnsh.main. rewrite Hlen. cbn [Nat.eqb negb]. cbv zeta.
      unfold Bnsh.bind at 1. rewrite Hrun. destruct r0 as [[|] | e]; reflexivity.
    + destruct r0 as [[|] | e]; cbn; auto.
    + intros Hne. contradiction.
    + intros _. cbv zeta. exists r0.
      split; [exact Hrun |]. split; [reflexivity |].
      split; [| split; [| split]].
      * destruct r0 as [[|] | e]; cbn; split; intros H;
          first [reflexivity | discriminate H].
      * intros Hmiss.
        rewrite (convert_bnsh_missing_input _ _ _ Hmiss) in Hrun.
        injection Hrun as <- <-. auto.
      * intros ->.
        destruct (convert_bnsh_true _ _ _ _ Hrun) as (f & Hl & _ & Hi).
        exists f. split; assumption.
      * intros lr f Hl Hr. destruct r0 as [[|] | e]; cbn; try reflexivity.
        exfalso.
        exact (convert_bnsh_tool_failure _ _ _ _ _ _ Hl Hr Hrun).
  - exists (Bnsh.Val 1). eexists. split; [| split; [| split]].
    + unfold Bnsh.main, Bnsh.sys_exit, Bnsh.print, Bnsh.bind, Bnsh.ret.
      apply Nat.eqb_neq in Hlen. rewrite Hlen. simpl. reflexivity.
    + right. reflexivity.
    + intros _. cbn. auto.
    + intros Heq. contradiction.
Qed.

End BnshMore.

(** * Concrete runs of the further properties *)

Lemma pack_of_words_witness :
  uint16 42 /\ uint16 61442 /\ uint16 62196 /\
  exists s : locals (F := float),
    unpack_locals 42 61442 62196 = Ok s /\ pack s = 267133812604970.
Proof.
  assert (H42 : uint16 42) by (unfold uint16; lia).
  assert (Hy : uint16 61442) by (unfold uint16; lia).
  assert (Hz : uint16 62196) by (unfold uint16; lia).
  refine (conj H42 (conj Hy (conj Hz _))).
  destruct (pack_of_words (F := float) 42 61442 62196 H42 Hy Hz)
    as (s & Hs & Hp & _).
  exists s. split; [exact Hs | exact Hp].
Defined.

Lemma fields_of_words_witness :
  uint16 42 /\ uint16 61442 /\ uint16 62196 /\
  exists s : locals (F := float),
    unpack_locals 42 61442 62196 = Ok s /\
    q1 s = expand_float 16389 /\ q2 s = expand_float 15360 /\
    q3 s = expand_float 31098 /\ missing_component s = 2 /\
    is_negative s = false.
Proof.
  assert (H42 : uint16 42) by (unfold uint16; lia).
  assert (Hy : uint16 61442) by (unfold uint16; lia).
  assert (Hz : uint16 62196) by (unfold uint16; lia).
  refine (conj H42 (conj Hy (conj Hz _))).
  exact (fields_of_words (F := float) 42 61442 62196 H42 Hy Hz).
Defined.

Lemma expand_float_increasing_witness :
  0 < 1 /\ (expand_float (F := R) 0 < expand_float (F := R) 1)%R.
Proof.
  assert (H : 0 < 1) by lia.
  split; [exact H |]. exact (proj1 (expand_float_increasing 0 1 H)).
Defined.

Lemma expand_float_b64_increasing_witness :
  0 <= 0 /\ 0 < 32767 /\ 32767 <= 32767 /\
  expand_float (F := float) 0 <> expand_float (F := float) 32767.
Proof.
  assert (H0 : 0 <= 0) by lia.
  assert (H1 : 0 < 32767) by lia.
  assert (H2 : 32767 <= 32767) by lia.
  refine (conj H0 (conj H1 (conj H2 _))).
  exact (proj2 (expand_float_b64_increasing 0 32767 H0 H1 H2)).
Defined.

Lemma decode_table_witness :
  exists s : locals (F := float),
    unpack_locals 42 61442 62196 = Ok s /\
    unpack_b64 42 61442 62196 = Ok [q3 s; q1 s; q2 s; max_component s].
Proof.
  destruct (decode_table (F := float) 42 61442 62196) as (s & Hs & Hout).
  exists s. split; [exact Hs |].
  assert (Hs' := Hs). vm_compute in Hs'. injection Hs' as Hs'.
  subst s. exact Hout.
Defined.

Lemma every_code_has_words_witness :
  exists x y z : Z,
    uint16 x /\ uint16 y /\ uint16 z /\
    exists s : locals (F := float),
      unpack_locals x y z = Ok s /\
      q1 s = expand_float 16389 /\ q2 s = expand_float 15360 /\
      q3 s = expand_float 31098 /\
      missing_component s = 2 /\ is_negative s = false.
Proof.
  destruct (every_code_has_words (F := float) 16389 15360 31098 2 false)
    as (x & y & z & Hx & Hy & Hz & Hs & _); try lia.
  exists x, y, z. repeat (split; [assumption |]). exact Hs.
Defined.


Lemma missing_executable_witness :
  exists w' : Bnsh.world (os := toy_os),
    Bnsh.main ["bnsh2glsl.py"; "good.bnsh"; "out"]%string toy_world_no_exe
      = (Bnsh.Val 1, w') /\
    Bnsh.invocations w' = [].
Proof.
  destruct (missing_executable (os := toy_os)
              "bnsh2glsl.py" "good.bnsh" "out" toy_world_no_exe
              eq_refl eq_refl) as [_ Hmain].
  eexists. split; [exact Hmain | reflexivity].
Defined.

Lemma convert_bnsh_true_iff_witness :
  exists w' : Bnsh.world (os := toy_os),
    Bnsh.convert_bnsh "good.bnsh"%string "out"%string toy_world
      = (Bnsh.Val true, w').
Proof.
  apply (proj2 (convert_bnsh_true_iff (os := toy_os)
                  "good.bnsh"%string "out"%string toy_world)).
  split; [reflexivity |]. split; [reflexivity |].
  exists ("out"%string :: Bnsh.files toy_world).
  split; [reflexivity |]. right. split; [reflexivity |].
  exists ["out/main.glsl"%string]. reflexivity.
Defined.

Lemma glob_failure_fails_witness :
  exists w' : Bnsh.world (os := toy_os_unreadable),
    Bnsh.main ["bnsh2glsl.py"; "good.bnsh"; "out"]%string toy_world_unreadable
      = (Bnsh.Val 1, w') /\
    Bnsh.invocations w' = [["BnshToGlsl.exe"; "good.bnsh"; "out"]%string].
Proof.
  destruct (glob_failure_fails (os := toy_os_unreadable)
              "bnsh2glsl.py" "good.bnsh" "out" toy_world_unreadable
              ("out"%string :: Bnsh.files toy_world_unreadable)
              (Bnsh.OtherException "Too many open files")
              eq_refl eq_refl eq_refl eq_refl eq_refl)
    as (w' & _ & Hmain & _ & Hinv).
  exists w'. split; [exact Hmain | exact Hinv].
Defined.

Lemma success_report_witness :
  (exists w' : Bnsh.world (os := toy_os),
     Bnsh.main ["bnsh2glsl.py"; "good.bnsh"; "out"]%string toy_world
       = (Bnsh.Val 0, w') /\
     last (Bnsh.console w') Bnsh.Blank = Bnsh.Rule /\
     In (Bnsh.Converted 1) (Bnsh.console w')) /\
  (exists w' : Bnsh.world (os := toy_os),
     Bnsh.main ["bnsh2glsl.py"%string; "good.bnsh"%string; long_name]
       toy_world = (Bnsh.Val 1, w') /\
     Bnsh.invocations w' = [["BnshToGlsl.exe"%string; "good.bnsh"%string;
                             long_name]]).
Proof.
  split.
  - destruct (success_report (os := toy_os)
                "bnsh2glsl.py" "good.bnsh" "out" toy_world
                ("out"%string :: Bnsh.files toy_world)
                eq_refl eq_refl eq_refl) as (_ & Hreport & _).
    destruct (Hreport ["out/main.glsl"%string] eq_refl eq_refl) as [_ Hmain].
    eexists. split; [exact Hmain |]. split; [reflexivity |].
    cbn. auto 20.
  - destruct (success_report (os := toy_os)
                "bnsh2glsl.py" "good.bnsh" long_name toy_world
                (long_name :: Bnsh.files toy_world)
                eq_refl eq_refl eq_refl) as (_ & _ & Hraise).
    destruct (Hraise (Bnsh.OtherException "File name too long") eq_refl)
      as [_ Hmain].
    eexists. split; [exact Hmain | reflexivity].
Defined.

Lemma exit_status_of_main_witness :
  exists (r : Bnsh.outcome Z) (w' : Bnsh.world (os := toy_os)),
    Bnsh.main ["bnsh2glsl.py"; "missing.bnsh"; "out"]%string toy_world
      = (r, w') /\
    Bnsh.exit_status r = 1 /\
    Bnsh.invocations w' = [].
Proof.
  destruct (exit_status_of_main (os := toy_os)
              ["bnsh2glsl.py"; "missing.bnsh"; "out"]%string toy_world)
    as (r & w' & Hmain & _ & _ & Hthree).
  destruct (Hthree eq_refl) as (r0 & _ & Hr & _ & Hmissing & _).
  destruct (Hmissing eq_refl) as (Hr0 & Hinv & _).
  exists r, w'. split; [exact Hmain |].
  rewrite Hr, Hr0. split; [reflexivity | exact Hinv].
Defined.
